(** * Cleaning pipeline and business aggregates of the online-shopping EDA toolkit

    A shallow embedding of [data_transform.py], [data_processing.py] and
    [analysis.py].  The Python functions are thin compositions of pandas
    calls, so the development has three layers:

    - numeric kernels of numpy/pandas over binary64 floats (quantile by linear
      interpolation, numpy's pairwise summation, NaN-skipping mean and median,
      sample skewness, Kahan group sums), written after pandas 2.x / numpy;
      what the libraries leave to libm or to the platform ([log1p], [pow],
      the tie order of the default argsort) is a parameter;
    - the pandas container model: typed columns, a data frame as an ordered
      list of named columns, item access and assignment, boolean-mask row
      selection, [select_dtypes], [astype(bool)], [pd.Categorical], [groupby],
      [sort_values];
    - the repository's own functions, one definition per Python function,
      keeping the source's names.

    Functions that assign into the frame they receive run in a small state and
    error monad whose state is the caller's frame. *)

From Stdlib Require Import List Bool Arith ZArith Lia String Ascii.
From Stdlib Require Import Floats Uint63 Permutation Sorted.
Import ListNotations.

Local Open Scope string_scope.
Local Open Scope list_scope.

(* ================================================================== *)
(** * Binary64 helpers *)

(** A machine-size count as a float ([np.float64(n)]). *)
Definition float_of_nat (n : nat) : float :=
  PrimFloat.of_uint63 (Uint63.of_Z (Z.of_nat n)).

(** [int(np.floor(x))] for a finite [x >= 0]; other inputs do not occur as
    virtual indexes and give [0]. *)
Definition floor_nat (x : float) : nat :=
  match Prim2SF x with
  | S754_finite false m e => Z.to_nat (Z.shiftl (Z.pos m) e)
  | _ => 0
  end.

(** pandas' [isna] on a float64 value: NaN is the missing marker. *)
Definition isna (x : float) : bool := PrimFloat.is_nan x.

Definition notna (x : float) : bool := negb (isna x).

Definition dropna (xs : list float) : list float := filter notna xs.

(** Ascending sort of NaN-free floats (what [np.sort]/[np.partition] expose
    to order statistics). *)
Fixpoint insert_float (x : float) (l : list float) : list float :=
  match l with
  | [] => [x]
  | y :: t => if PrimFloat.leb x y then x :: l else y :: insert_float x t
  end.

Definition sort_floats (l : list float) : list float :=
  fold_right insert_float [] l.

(** [np.putmask(values, mask, 0)]: the missing entries replaced by [0]. *)
Definition fill_zero (xs : list float) : list float :=
  map (fun x => if isna x then 0%float else x) xs.


(* ================================================================== *)
(** * numpy / pandas numeric kernels *)

(** numpy's [_lerp(a, b, t)]: [a + (b - a) * t], replaced by
    [b - (b - a) * (1 - t)] where [t >= 0.5]. *)
Definition lerp (a b t : float) : float :=
  let diff_b_a := PrimFloat.sub b a in
  if PrimFloat.leb 0.5%float t
  then PrimFloat.sub b (PrimFloat.mul diff_b_a (PrimFloat.sub 1%float t))
  else PrimFloat.add a (PrimFloat.mul diff_b_a t).

(** [np.percentile(values, p)] with the default ['linear'] method, on a
    non-empty NaN-free array: virtual index [(n - 1) * (p / 100)], its floor
    and successor, and the interpolation between the two order statistics.
    At or above the last index both neighbours are the maximum. *)
Definition np_percentile (values : list float) (p : float) : float :=
  let n := List.length values in
  let sorted := sort_floats values in
  let quantile := PrimFloat.div p 100%float in
  let virtual_index := PrimFloat.mul (float_of_nat (n - 1)) quantile in
  if PrimFloat.leb (float_of_nat (n - 1)) virtual_index
  then
    let last := nth (n - 1) sorted PrimFloat.nan in
    lerp last last (PrimFloat.add virtual_index 1%float)
  else
    let previous_index := floor_nat virtual_index in
    let gamma := PrimFloat.sub virtual_index (float_of_nat previous_index) in
    lerp (nth previous_index sorted PrimFloat.nan)
         (nth (S previous_index) sorted PrimFloat.nan) gamma.

(** [Series.quantile(q)]: missing entries are dropped; an empty remainder
    gives NaN; otherwise [np.percentile(values, q * 100)]. *)
Definition series_quantile (xs : list float) (q : float) : float :=
  match dropna xs with
  | [] => PrimFloat.nan
  | values => np_percentile values (PrimFloat.mul q 100%float)
  end.

(** The order-statistic median of a NaN-free array ([np.median]). *)
Definition np_median (values : list float) : float :=
  let n := List.length values in
  let sorted := sort_floats values in
  match n with
  | 0 => PrimFloat.nan
  | _ =>
      if Nat.even n
      then PrimFloat.div
             (PrimFloat.add (nth (n / 2 - 1) sorted PrimFloat.nan)
                            (nth (n / 2) sorted PrimFloat.nan)) 2%float
      else nth (n / 2) sorted PrimFloat.nan
  end.

(** numpy's [pairwise_sum], the inner loop of [np.add.reduce] over a
    contiguous float64 array [a] of [n] items:
    - [n < 8]: the items are added left to right, starting from [-0.0];
    - [n <= 128]: eight accumulators start as [a[0..7]], each takes every
      eighth item while whole blocks of eight remain, they are combined as
      [((r0 + r1) + (r2 + r3)) + ((r4 + r5) + (r6 + r7))], and the items left
      over are added one by one;
    - otherwise the array is cut at [n / 2] rounded down to a multiple of
      eight and the sums of the two halves are added. *)
Fixpoint add_lanes (r chunk : list float) : list float :=
  match r, chunk with
  | a :: r', b :: chunk' => PrimFloat.add a b :: add_lanes r' chunk'
  | _, _ => r
  end.

Fixpoint unrolled (blocks : nat) (r rest : list float)
  : list float * list float :=
  match blocks with
  | 0 => (r, rest)
  | S blocks' => unrolled blocks' (add_lanes r (firstn 8 rest)) (skipn 8 rest)
  end.

Definition pairwise_block (a : list float) : float :=
  let n := List.length a in
  let '(r, rest) := unrolled (n / 8 - 1) (firstn 8 a) (skipn 8 a) in
  let lane := fun i => nth i r 0%float in
  let res :=
    PrimFloat.add
      (PrimFloat.add (PrimFloat.add (lane 0) (lane 1))
                     (PrimFloat.add (lane 2) (lane 3)))
      (PrimFloat.add (PrimFloat.add (lane 4) (lane 5))
                     (PrimFloat.add (lane 6) (lane 7))) in
  fold_left PrimFloat.add rest res.

(** [depth] bounds the halvings; the length of the array is always enough. *)
Fixpoint pairwise_sum (depth : nat) (a : list float) : float :=
  let n := List.length a in
  if Nat.ltb n 8 then fold_left PrimFloat.add a PrimFloat.neg_zero
  else if Nat.leb n 128 then pairwise_block a
  else
    match depth with
    | 0 => pairwise_block a
    | S depth' =>
        let n2 := n / 2 - (n / 2) mod 8 in
        PrimFloat.add (pairwise_sum depth' (firstn n2 a))
                      (pairwise_sum depth' (skipn n2 a))
    end.

(** [ndarray.sum()] of a one-dimensional float64 array. *)
Definition np_sum (a : list float) : float := pairwise_sum (List.length a) a.

(** [Series.median()] ([nanops.nanmedian], [skipna=True]): the median of the
    non-missing values. *)
Definition series_median (xs : list float) : float := np_median (dropna xs).

(** [Series.mean()] ([nanops.nanmean], [skipna=True]): the missing entries
    are replaced by [0] in place, the whole array is summed, and the sum is
    divided by the number of non-missing entries; without any the mean is
    NaN. *)
Definition series_mean (xs : list float) : float :=
  match List.length (dropna xs) with
  | 0 => PrimFloat.nan
  | count => PrimFloat.div (np_sum (fill_zero xs)) (float_of_nat count)
  end.

(** [_zero_out_fperr]: a sum below [1e-14] (the binary64
    [0x1.6849b86a12b9bp-47]) in magnitude counts as zero. *)
Definition zero_out_fperr (x : float) : float :=
  if PrimFloat.ltb (PrimFloat.abs x) 0x1.6849b86a12b9bp-47%float
  then 0%float else x.

Section Skewness.

(** C's [pow], which numpy calls for [**] between float64 scalars.  Its
    results are libm's: close to, but not always, the correctly rounded
    power.  It is a parameter of the development. *)
Variable pow : float -> float -> float.

(** [Series.skew()] ([nanops.nanskew], [skipna=True]).  [count] is the number
    of non-missing values; the missing entries are zeroed before the sum that
    gives the mean and again in the deviations; [m2] and [m3] are the sums of
    the squared and cubed deviations; the result is
    [(count * (count - 1) ** 0.5 / (count - 2)) * (m3 / m2 ** 1.5)], replaced
    by [0] when [m2 = 0]; fewer than three values give NaN. *)
Definition series_skew (xs : list float) : float :=
  let n := List.length (dropna xs) in
  let count := float_of_nat n in
  let values := fill_zero xs in
  let mean := PrimFloat.div (np_sum values) count in
  let adjusted :=
    map (fun x => if isna x then 0%float else PrimFloat.sub x mean) xs in
  let adjusted2 := map (fun a => PrimFloat.mul a a) adjusted in
  let adjusted3 := map (fun a => PrimFloat.mul (PrimFloat.mul a a) a) adjusted in
  let m2 := zero_out_fperr (np_sum adjusted2) in
  let m3 := zero_out_fperr (np_sum adjusted3) in
  let result :=
    PrimFloat.mul
      (PrimFloat.div
         (PrimFloat.mul count (pow (PrimFloat.sub count 1%float) 0.5%float))
         (PrimFloat.sub count 2%float))
      (PrimFloat.div m3 (pow m2 1.5%float)) in
  if Nat.ltb n 3 then PrimFloat.nan
  else if PrimFloat.eqb m2 0%float then 0%float
  else result.

End Skewness.

(** The correctly rounded [x ** 1.5]: the rounded square root of the exact
    cube.  [pow(x, 1.5)] is [+0] at a zero, infinite at an infinity and NaN
    at a negative number. *)
Definition pow_3_2 (x : float) : float :=
  match Prim2SF x with
  | S754_finite false m e =>
      SF2Prim (SFsqrt prec emax (S754_finite false (m * m * m) (3 * e)))
  | S754_zero _ => 0%float
  | S754_infinity _ => PrimFloat.infinity
  | _ => PrimFloat.nan
  end.

(** A [pow] that rounds correctly at the two exponents [nanskew] uses. *)
Definition rounded_pow (x y : float) : float :=
  if PrimFloat.eqb y 0.5%float then
    (if PrimFloat.ltb 0%float x then PrimFloat.sqrt x
     else if PrimFloat.eqb x 0%float then 0%float
     else if PrimFloat.eqb x PrimFloat.neg_infinity then PrimFloat.infinity
     else PrimFloat.nan)
  else if PrimFloat.eqb y 1.5%float then pow_3_2 x
  else PrimFloat.nan.


(** One Kahan-compensated accumulation step of pandas' grouped sum and mean
    ([group_sum]/[group_mean]); a NaN compensation (overflow) is reset. *)
Definition kahan_step (acc : float * float) (val : float) : float * float :=
  let '(sumx, compensation) := acc in
  let y := PrimFloat.sub val compensation in
  let t := PrimFloat.add sumx y in
  let c := PrimFloat.sub (PrimFloat.sub t sumx) y in
  (t, if PrimFloat.is_nan c then 0%float else c).

Definition kahan_sum (values : list float) : float :=
  fst (fold_left kahan_step values (0%float, 0%float)).

(** Grouped [sum] (missing values skipped, [min_count = 0], so an empty group
    sums to [0]) and grouped [mean] (an empty group gives NaN). *)
Definition group_sum (xs : list float) : float := kahan_sum (dropna xs).

Definition group_mean (xs : list float) : float :=
  let values := dropna xs in
  match values with
  | [] => PrimFloat.nan
  | _ => PrimFloat.div (kahan_sum values) (float_of_nat (List.length values))
  end.

(* ================================================================== *)
(** * The pandas container model *)

(** A non-missing Python scalar held in a column. *)
Inductive scalar : Type :=
| SBool (b : bool)
| SNum (x : float)
| SStr (s : string).

(** A cell of an object column: [None] is Python's [None]; a float NaN is
    [Some (SNum nan)]. *)
Definition cell : Type := option scalar.

(** A column with its dtype:
    - [Numeric]: float64 (an int64 column is held by its float values);
    - [Boolean]: bool;
    - [Object]: Python objects (raw strings, [None], NaN);
    - [Categorical]: the declared categories, the [ordered] flag and one code
      per row, [None] standing for the missing code [-1]. *)
Inductive column : Type :=
| Numeric (xs : list float)
| Boolean (bs : list bool)
| Object (vs : list cell)
| Categorical (categories : list scalar) (ordered : bool)
              (codes : list (option nat)).

(** A frame: named columns in column order.  Labels are unique in every frame
    the toolkit loads; statements that depend on it assume
    [NoDup (columns df)]. *)
Definition DataFrame : Type := list (string * column).

Definition col_len (c : column) : nat :=
  match c with
  | Numeric xs => List.length xs
  | Boolean bs => List.length bs
  | Object vs => List.length vs
  | Categorical _ _ codes => List.length codes
  end.

Definition columns (df : DataFrame) : list string := map fst df.

(** [len(df)]. *)
Definition nrows (df : DataFrame) : nat :=
  match df with
  | [] => 0
  | (_, c) :: _ => col_len c
  end.

(** The values of a column as cells; a missing categorical entry reads NaN. *)
Definition column_values (c : column) : list cell :=
  match c with
  | Numeric xs => map (fun x => Some (SNum x)) xs
  | Boolean bs => map (fun b => Some (SBool b)) bs
  | Object vs => vs
  | Categorical categories _ codes =>
      map (fun code =>
             match code with
             | Some k => nth_error categories k
             | None => Some (SNum PrimFloat.nan)
             end) codes
  end.

(** [pd.isna] on a cell. *)
Definition cell_isna (v : cell) : bool :=
  match v with
  | None => true
  | Some (SNum x) => isna x
  | Some _ => false
  end.

(** The numeric value of a bool or a number ([True == 1]). *)
Definition scalar_num (s : scalar) : option float :=
  match s with
  | SBool b => Some (if b then 1%float else 0%float)
  | SNum x => Some x
  | SStr _ => None
  end.

(** Python [==] between scalars (hash lookups and group keys use it). *)
Definition scalar_eqb (a b : scalar) : bool :=
  match a, b with
  | SStr s, SStr t => String.eqb s t
  | SStr _, _ | _, SStr _ => false
  | _, _ =>
      match scalar_num a, scalar_num b with
      | Some x, Some y => PrimFloat.eqb x y
      | _, _ => false
      end
  end.

(** Python truthiness, [bool(v)]. *)
Definition truthy (v : cell) : bool :=
  match v with
  | None => false
  | Some (SBool b) => b
  | Some (SNum x) => negb (PrimFloat.eqb x 0%float)
  | Some (SStr s) => negb (String.eqb s "")
  end.

Definition missing_code (code : option nat) : bool :=
  match code with
  | None => true
  | Some _ => false
  end.

(** [Series.astype(bool)]: element-wise truthiness.  A categorical column
    casts its categories and takes them by code; when it has a missing code
    the missing entries stay NaN, which a bool array cannot hold, so the
    result is an object column of truth values and NaN. *)
Definition astype_bool (c : column) : column :=
  match c with
  | Categorical categories _ codes =>
      if existsb missing_code codes
      then Object (map (fun code =>
                          match code with
                          | Some k =>
                              Some (SBool (truthy (nth_error categories k)))
                          | None => Some (SNum PrimFloat.nan)
                          end) codes)
      else Boolean (map truthy (column_values c))
  | _ => Boolean (map truthy (column_values c))
  end.

(** Position of the first category equal to [v]. *)
Fixpoint index_of (v : scalar) (categories : list scalar) : option nat :=
  match categories with
  | [] => None
  | c :: rest =>
      if scalar_eqb v c then Some 0
      else option_map S (index_of v rest)
  end.

(** The code [pd.Categorical] gives a value: missing values and values that
    are not among the categories get the missing code. *)
Definition categorical_code (categories : list scalar) (v : cell)
  : option nat :=
  match v with
  | Some s => if cell_isna v then None else index_of s categories
  | None => None
  end.

(** [pd.Categorical(values, categories=..., ordered=...)]. *)
Definition pd_Categorical (values : list cell) (categories : list scalar)
           (ordered : bool) : column :=
  Categorical categories ordered (map (categorical_code categories) values).

(** Positional selection by a boolean mask. *)
Fixpoint select {A : Type} (mask : list bool) (xs : list A) : list A :=
  match mask, xs with
  | m :: mask', x :: xs' =>
      if m then x :: select mask' xs' else select mask' xs'
  | _, _ => []
  end.

Definition col_select (mask : list bool) (c : column) : column :=
  match c with
  | Numeric xs => Numeric (select mask xs)
  | Boolean bs => Boolean (select mask bs)
  | Object vs => Object (select mask vs)
  | Categorical categories ordered codes =>
      Categorical categories ordered (select mask codes)
  end.

(** [df[mask]] for a boolean Series [mask] aligned with [df]: a new frame
    holding the rows where the mask is true, every column filtered alike. *)
Definition select_rows (mask : list bool) (df : DataFrame) : DataFrame :=
  map (fun nc => (fst nc, col_select mask (snd nc))) df.

(** Column lookup and assignment by name. *)
Fixpoint get_col (name : string) (df : DataFrame) : option column :=
  match df with
  | [] => None
  | (n, c) :: rest => if String.eqb n name then Some c else get_col name rest
  end.

Fixpoint set_col (name : string) (c : column) (df : DataFrame) : DataFrame :=
  match df with
  | [] => [(name, c)]
  | (n, c0) :: rest =>
      if String.eqb n name then (n, c) :: rest
      else (n, c0) :: set_col name c rest
  end.

Definition is_number (c : column) : bool :=
  match c with
  | Numeric _ => true
  | _ => false
  end.

(** The column labels of [df.select_dtypes(include=['number'])]: bool, object
    and categorical columns are not numbers. *)
Definition select_dtypes_number (df : DataFrame) : list string :=
  map fst (filter (fun nc => is_number (snd nc)) df).

(** [Series.fillna(value)] on float64 data. *)
Definition fillna (value : float) (xs : list float) : list float :=
  map (fun x => if isna x then value else x) xs.

(* ------------------------------------------------------------------ *)
(** ** Exceptions and the frame monad *)

(** The exceptions of the calls modelled here.  [Unmodelled] is not one of
    them: it marks a call that pandas completes with a value this development
    has no type for (a grouped sum of strings, which concatenates them);
    nothing is claimed about such a call. *)
Inductive exn : Type :=
| KeyError (key : string)
| TypeError
| Unmodelled.

Inductive outcome (A : Type) : Type :=
| Ok (a : A)
| Raise (e : exn).

Arguments Ok {A} a.
Arguments Raise {A} e.

(** A computation over the frame object the caller passed in: it receives the
    frame, leaves it in a (possibly updated) state and returns or raises. *)
Definition M (A : Type) : Type := DataFrame -> DataFrame * outcome A.

Definition ret {A : Type} (a : A) : M A := fun df => (df, Ok a).

Definition raise {A : Type} (e : exn) : M A := fun df => (df, Raise e).

Definition bind {A B : Type} (c : M A) (k : A -> M B) : M B :=
  fun df =>
    match c df with
    | (df', Ok a) => k a df'
    | (df', Raise e) => (df', Raise e)
    end.

Declare Scope frame_scope.
Delimit Scope frame_scope with frame.
Notation "x <- c ;; k" := (bind c (fun x => k))
  (at level 61, c at next level, right associativity) : frame_scope.
Notation "c ;; k" := (bind c (fun _ => k))
  (at level 61, right associativity) : frame_scope.
Local Open Scope frame_scope.

(** [df[name]] read: [KeyError] when the label is absent. *)
Definition getitem (name : string) : M column :=
  fun df =>
    match get_col name df with
    | Some c => (df, Ok c)
    | None => (df, Raise (KeyError name))
    end.

(** [df[name] = c]: replaces the column in place, keeping its position. *)
Definition setitem (name : string) (c : column) : M unit :=
  fun df => (set_col name c df, Ok tt).

(** The frame object itself ([return df]). *)
Definition this : M DataFrame := fun df => (df, Ok df).

(** The labels of [df.select_dtypes(include=['number'])], read once, before
    the loop over them runs. *)
Definition number_labels : M (list string) :=
  fun df => (df, Ok (select_dtypes_number df)).

(** The numbers an object column holds, when it holds nothing else: a bool
    counts as 0 or 1 and a missing cell ([None] or NaN) reads NaN; a string
    makes the column non-numeric. *)
Fixpoint object_floats (vs : list cell) : option (list float) :=
  match vs with
  | [] => Some []
  | v :: rest =>
      match match v with
            | None => Some PrimFloat.nan
            | Some s => scalar_num s
            end, object_floats rest with
      | Some x, Some xs => Some (x :: xs)
      | _, _ => None
      end
  end.

(** The data that quantiles, order comparisons and float arithmetic work on:
    a float64 Series as it is, an object Series when it holds numbers; on
    strings, and on the bool and category dtypes, they raise [TypeError]. *)
Definition float_data (c : column) : M (list float) :=
  match c with
  | Numeric xs => ret xs
  | Object vs =>
      match object_floats vs with
      | Some xs => ret xs
      | None => raise TypeError
      end
  | _ => raise TypeError
  end.

(** A [for] loop over labels. *)
Fixpoint for_each {A : Type} (l : list A) (body : A -> M unit) : M unit :=
  match l with
  | [] => ret tt
  | a :: rest => body a ;; for_each rest body
  end.

(* ================================================================== *)
(** * data_transform.py *)

Definition month_categories : list scalar :=
  [SStr "Jan"; SStr "Feb"; SStr "Mar"; SStr "Apr"; SStr "May"; SStr "Jun";
   SStr "Jul"; SStr "Aug"; SStr "Sep"; SStr "Oct"; SStr "Nov"; SStr "Dec"].

(** [DataTransform.convert_columns(df)]: three assignments in sequence, each
    reading its column first. *)
Definition convert_columns : M DataFrame :=
  month <- getitem "month" ;;
  setitem "month"
          (pd_Categorical (column_values month) month_categories true) ;;
  weekend <- getitem "weekend" ;;
  setitem "weekend" (astype_bool weekend) ;;
  revenue <- getitem "revenue" ;;
  setitem "revenue" (astype_bool revenue) ;;
  this.

(** [df[col].fillna(value, inplace=True)]: under pandas 2.x (no copy-on-write)
    [df[col]] is the frame's own cached Series, so the in-place fill writes
    through to the frame. *)
Definition fillna_inplace (col : string) (receiver : column) (value : float)
  : M unit :=
  xs <- float_data receiver ;;
  setitem col (Numeric (fillna value xs)).

(** [DataFrameTransform.impute_missing(df, strategy)]. *)
Definition impute_missing (strategy : string) : M DataFrame :=
  numeric <- number_labels ;;
  for_each numeric (fun col =>
    if String.eqb strategy "median" then
      receiver <- getitem col ;;
      series <- getitem col ;;
      xs <- float_data series ;;
      fillna_inplace col receiver (series_median xs)
    else if String.eqb strategy "mean" then
      receiver <- getitem col ;;
      series <- getitem col ;;
      xs <- float_data series ;;
      fillna_inplace col receiver (series_mean xs)
    else ret tt) ;;
  this.

(* ================================================================== *)
(** * data_processing.py *)

Section SkewTransform.

(** [np.log1p] on binary64.  Rocq's floats have no logarithm; the transform
    is a parameter of the development. *)
Variable log1p : float -> float.

(** C's [pow], as in [series_skew]. *)
Variable pow : float -> float -> float.

(** [DataSkewTransformer.fix_skew(df, threshold)]. *)
Definition fix_skew (threshold : float) : M DataFrame :=
  numeric_cols <- number_labels ;;
  for_each numeric_cols (fun col =>
    series <- getitem col ;;
    xs <- float_data series ;;
    let skewness := series_skew pow xs in
    if PrimFloat.ltb threshold (PrimFloat.abs skewness) then
      arg <- getitem col ;;
      ys <- float_data arg ;;
      setitem col (Numeric (map log1p ys))
    else ret tt) ;;
  this.

End SkewTransform.

(** [df[col]] as float64 data, outside the monad: the frame is only read. *)
Definition frame_floats (df : DataFrame) (col : string)
  : outcome (list float) :=
  snd ((series <- getitem col ;; float_data series) df).

(** [OutlierHandler.remove_outliers(df, columns)]: the local name [df] is
    rebound to a new, filtered frame on every iteration; the caller's frame
    is never assigned to. *)
Fixpoint remove_outliers (df : DataFrame) (columns : list string)
  : outcome DataFrame :=
  match columns with
  | [] => Ok df
  | col :: rest =>
      match frame_floats df col with
      | Raise e => Raise e
      | Ok xs =>
          let Q1 := series_quantile xs 0.25%float in
          let Q3 := series_quantile xs 0.75%float in
          let IQR := PrimFloat.sub Q3 Q1 in
          let mask :=
            map (fun x =>
                   negb (PrimFloat.ltb x (PrimFloat.sub Q1
                                            (PrimFloat.mul 1.5%float IQR))
                         || PrimFloat.ltb (PrimFloat.add Q3
                                             (PrimFloat.mul 1.5%float IQR)) x))
                xs in
          remove_outliers (select_rows mask df) rest
      end
  end.

(* ================================================================== *)
(** * analysis.py *)

(** A result Series: group key and aggregate, in index order. *)
Definition Series : Type := list (scalar * float).

(** The order [groupby(sort=True)] puts distinct keys in: bools and numbers by
    value, strings lexicographically, numbers before strings. *)
Definition scalar_leb (a b : scalar) : bool :=
  match a, b with
  | SStr s, SStr t => String.leb s t
  | SStr _, _ => false
  | _, SStr _ => true
  | _, _ =>
      match scalar_num a, scalar_num b with
      | Some x, Some y => PrimFloat.leb x y
      | _, _ => false
      end
  end.

Fixpoint insert_key (k : scalar) (l : list scalar) : list scalar :=
  match l with
  | [] => [k]
  | y :: t => if scalar_leb k y then k :: l else y :: insert_key k t
  end.

Definition sort_keys (l : list scalar) : list scalar :=
  fold_right insert_key [] l.

(** Distinct values, first occurrences kept. *)
Fixpoint unique (vs : list scalar) : list scalar :=
  match vs with
  | [] => []
  | v :: rest => v :: filter (fun w => negb (scalar_eqb w v)) (unique rest)
  end.

(** The non-missing values of a key column ([dropna=True]). *)
Definition present_values (vs : list cell) : list scalar :=
  flat_map (fun v =>
              match v with
              | Some s => if cell_isna v then [] else [s]
              | None => []
              end) vs.

Definition code_used (codes : list (option nat)) (k : nat) : bool :=
  existsb (fun c => match c with Some j => Nat.eqb j k | None => false end)
          codes.

(** The group keys of [df.groupby(by, observed=...)]: a categorical grouper
    yields its categories in category order, all of them unless
    [observed=True]; any other grouper yields its distinct non-missing values,
    sorted. *)
Definition group_keys (observed : bool) (c : column) : list scalar :=
  match c with
  | Categorical categories _ codes =>
      if observed
      then map snd
             (filter (fun ic => code_used codes (fst ic))
                     (combine (seq 0 (List.length categories)) categories))
      else categories
  | _ => sort_keys (unique (present_values (column_values c)))
  end.

(** Whether a row whose key cell is [v] belongs to the group of [k]. *)
Definition in_group (k : scalar) (v : cell) : bool :=
  match v with
  | Some s => negb (cell_isna v) && scalar_eqb s k
  | None => false
  end.

Record GroupBy : Type := mkGroupBy {
  grouper_keys : list scalar;
  grouper_cells : list cell
}.

(** [df.groupby(by, observed=observed)]. *)
Definition groupby (by_ : string) (observed : bool) : M GroupBy :=
  grouper <- getitem by_ ;;
  ret (mkGroupBy (group_keys observed grouper) (column_values grouper)).

(** The data the compensated kernels of a grouped [sum]/[mean] take: float64
    as it is, bool as 0/1. *)
Definition numeric_view (c : column) : option (list float) :=
  match c with
  | Numeric xs => Some xs
  | Boolean bs =>
      Some (map (fun b : bool => if b then 1%float else 0%float) bs)
  | _ => None
  end.

(** [g[name]] on a [DataFrameGroupBy]: the column to aggregate is looked up
    when it is selected, and an absent label is reported by the GroupBy
    object. *)
Definition groupby_getitem (name : string) : M column :=
  fun df =>
    match get_col name df with
    | Some c => (df, Ok c)
    | None =>
        (df, Raise (KeyError (String.append "Column not found: " name)))
    end.

Definition group_values (k : scalar) (cells : list cell) (xs : list float)
  : list float :=
  select (map (in_group k) cells) xs.

(** One entry per group key for a reduction [agg]. *)
Definition grouped (agg : list float -> float) (g : GroupBy)
           (xs : list float) : Series :=
  map (fun k => (k, agg (group_values k (grouper_cells g) xs)))
      (grouper_keys g).

(** The reductions of a group of an object column that holds numbers.  They
    add Python numbers one after the other, without compensation: the grouped
    sum starts from the first non-missing value (an empty group sums to [0]);
    the grouped mean falls back to [Series.mean()] on the group, which zeroes
    the missing entries, adds from the first entry on and divides by the
    number of non-missing ones. *)
Definition object_sum (xs : list float) : float :=
  match dropna xs with
  | [] => 0%float
  | x :: rest => fold_left PrimFloat.add rest x
  end.

Definition object_mean (xs : list float) : float :=
  match dropna xs, fill_zero xs with
  | _ :: _, x :: rest =>
      PrimFloat.div (fold_left PrimFloat.add rest x)
                    (float_of_nat (List.length (dropna xs)))
  | _, _ => PrimFloat.nan
  end.

(** [g[col].sum()] / [g[col].mean()]: float64 and bool data go through the
    compensated kernel [float_agg]; an object column that holds numbers goes
    through [object_agg]; an object column with a string ends as [strings]
    says; a categorical column has no numeric aggregate. *)
Definition aggregate (float_agg object_agg : list float -> float)
           (strings : exn) (g : GroupBy) (c : column) : M Series :=
  match numeric_view c with
  | Some xs => ret (grouped float_agg g xs)
  | None =>
      match c with
      | Object vs =>
          match object_floats vs with
          | Some xs => ret (grouped object_agg g xs)
          | None => raise strings
          end
      | _ => raise TypeError
      end
  end.

(** Positional take. *)
Definition take {A : Type} (indexer : list nat) (l : list A) : list A :=
  flat_map (fun i => match nth_error l i with
                     | Some a => [a]
                     | None => []
                     end) indexer.

Section SortValues.

(** [ndarray.argsort(kind='quicksort')], numpy's default kind, on NaN-free
    data.  numpy fixes no tie order for it, so the sort is a parameter; what
    a claim needs of it is stated where it is used. *)
Variable argsort : list float -> list nat.

(** pandas' [nargsort(items, ascending=False, na_position='last')]: the
    non-missing items and their positions are reversed, argsorted, and the
    indexer reversed back; missing items follow in their original order. *)
Definition nargsort_desc (items : list float) : list nat :=
  let idx := seq 0 (List.length items) in
  let mask := map isna items in
  let non_nans := rev (select (map negb mask) items) in
  let non_nan_idx := rev (select (map negb mask) idx) in
  let nan_idx := select mask idx in
  rev (take (argsort non_nans) non_nan_idx) ++ nan_idx.

(** [Series.sort_values(ascending=False)]. *)
Definition sort_values_desc (s : Series) : Series :=
  take (nargsort_desc (map snd s)) s.

(** [BusinessAnalysis.regional_revenue_analysis(df)].  [groupby] is called
    without [observed]; pandas 2.x defaults it to [False]. *)
Definition regional_revenue_analysis : M Series :=
  g <- groupby "region" false ;;
  revenue <- groupby_getitem "revenue" ;;
  sums <- aggregate group_sum object_sum Unmodelled g revenue ;;
  ret (sort_values_desc sums).

End SortValues.

(** [BusinessAnalysis.weekend_sales_analysis(df)]. *)
Definition weekend_sales_analysis : M Series :=
  g <- groupby "weekend" false ;;
  revenue <- groupby_getitem "revenue" ;;
  aggregate group_mean object_mean TypeError g revenue.

(** Two argsorts to run examples with.  Both sort; they differ on ties.
    [stable_argsort] inserts each position after the positions of the items
    that are not larger, so equal items keep their order.  It is not numpy's
    default kind, which is not stable. *)
Fixpoint insert_index (items : list float) (i : nat) (l : list nat)
  : list nat :=
  match l with
  | [] => [i]
  | j :: t =>
      if PrimFloat.ltb (nth i items PrimFloat.nan) (nth j items PrimFloat.nan)
      then i :: l
      else j :: insert_index items i t
  end.

Definition stable_argsort (items : list float) : list nat :=
  fold_left (fun acc i => insert_index items i acc)
            (seq 0 (List.length items)) [].

(** [unstable_argsort] inserts each position before the positions of the
    items that are not smaller, so equal items come out in reverse order; on
    [[1, 1, 0, 0]] it returns [[3, 2, 1, 0]], the indexer numpy's default
    kind returns for that array. *)
Fixpoint insert_index_first (items : list float) (i : nat) (l : list nat)
  : list nat :=
  match l with
  | [] => [i]
  | j :: t =>
      if PrimFloat.leb (nth i items PrimFloat.nan) (nth j items PrimFloat.nan)
      then i :: l
      else j :: insert_index_first items i t
  end.

Definition unstable_argsort (items : list float) : list nat :=
  fold_left (fun acc i => insert_index_first items i acc)
            (seq 0 (List.length items)) [].

(* ------------------------------------------------------------------ *)
(** ** [traffic_analysis] *)

(** A row of the aggregated frame: the traffic type, the summed revenue and
    the mean bounce rate. *)
Definition TrafficRow : Type := (scalar * (float * float))%type.

Fixpoint insert_label (l : string) (sorted : list string) : list string :=
  match sorted with
  | [] => [l]
  | y :: t => if String.leb l y then l :: sorted else y :: insert_label l t
  end.

(** Python's [repr] of a list of plain labels: [['a', 'b']]. *)
Definition py_list_repr (labels : list string) : string :=
  String.append "["
    (String.append
       (String.concat ", "
          (map (fun l => String.append "'" (String.append l "'")) labels))
       "]").

(** The check a dict-like [agg] starts with (pandas 2.x): the keys that are
    not columns, sorted, are reported in one [KeyError]. *)
Definition agg_labels_exist (labels : list string) : M unit :=
  fun df =>
    match fold_right insert_label []
                     (filter (fun l => match get_col l df with
                                       | Some _ => false
                                       | None => true
                                       end) labels) with
    | [] => (df, Ok tt)
    | missing =>
        (df, Raise (KeyError
                      (String.append "Column(s) "
                         (String.append (py_list_repr missing)
                                        " do not exist"))))
    end.

Section TrafficAnalysis.

(** The argsort behind [DataFrame.sort_values], a parameter as above. *)
Variable argsort : list float -> list nat.

(** [BusinessAnalysis.traffic_analysis(df)]: per traffic type the sum of
    [revenue] and the mean of [bounce_rates], the rows then sorted by the
    summed revenue, descending. *)
Definition traffic_analysis : M (list TrafficRow) :=
  g <- groupby "traffic_type" false ;;
  agg_labels_exist ["revenue"; "bounce_rates"] ;;
  revenue <- getitem "revenue" ;;
  sums <- aggregate group_sum object_sum Unmodelled g revenue ;;
  bounce_rates <- getitem "bounce_rates" ;;
  means <- aggregate group_mean object_mean TypeError g bounce_rates ;;
  let table :=
    combine (grouper_keys g) (combine (map snd sums) (map snd means)) in
  ret (take (nargsort_desc argsort (map (fun row => fst (snd row)) table))
            table).

End TrafficAnalysis.

(* ================================================================== *)
(** * data_transform.py: [DataFrameInfo] *)

(** A column's dtype as [df.dtypes] reports it; a categorical dtype carries
    its categories and its ordered flag.  [DNumber] stands for float64 (and
    for int64, which the model holds by its float values). *)
Inductive dtype : Type :=
| DNumber
| DBool
| DObject
| DCategory (categories : list scalar) (ordered : bool).

Definition column_dtype (c : column) : dtype :=
  match c with
  | Numeric _ => DNumber
  | Boolean _ => DBool
  | Object _ => DObject
  | Categorical categories ordered _ => DCategory categories ordered
  end.

(** [DataFrameInfo.describe_columns(df)]: [df.dtypes]. *)
Definition describe_columns (df : DataFrame) : list (string * dtype) :=
  map (fun nc => (fst nc, column_dtype (snd nc))) df.

(** The number of missing entries of a column ([Series.isnull().sum()]). *)
Definition null_count (c : column) : nat :=
  List.length (filter cell_isna (column_values c)).

(** [DataFrameInfo.count_nulls(df)]: [df.isnull().sum()]. *)
Definition count_nulls (df : DataFrame) : list (string * nat) :=
  map (fun nc => (fst nc, null_count (snd nc))) df.


(* ================================================================== *)
(** * plotter.py: the frame side of [plot_device_breakdown] *)




(* ================================================================== *)
(** * Sample frames used by the examples *)

(** A raw frame whose month column holds a label outside the twelve, a
    Python [None] and a NaN next to valid labels. *)
Definition raw_sessions : DataFrame :=
  [("month", Object [Some (SStr "Jan"); Some (SStr "Foo"); None;
                     Some (SStr "Dec")]);
   ("bounce_rates", Numeric [1%float; PrimFloat.nan; 3%float; 4%float]);
   ("weekend", Object [Some (SStr "False"); Some (SStr ""); None;
                       Some (SNum PrimFloat.nan)]);
   ("revenue", Numeric [0%float; 1%float; PrimFloat.nan; 2%float])].

(** A frame without the [weekend] column. *)
Definition no_weekend : DataFrame :=
  [("month", Object [Some (SStr "Jan")]); ("revenue", Numeric [1%float])].

(** A frame whose weekend column is already categorical, over [False, True],
    with a missing entry: [pd.Categorical([True, None, False])]. *)
Definition categorical_weekend : DataFrame :=
  [("month", Object [Some (SStr "Jan"); Some (SStr "Feb"); Some (SStr "Mar")]);
   ("weekend", Categorical [SBool false; SBool true] false
                           [Some 1; None; Some 0]);
   ("revenue", Numeric [0%float; 1%float; 2%float])].






(** Four regions whose sums tie in pairs. *)
Definition four_regions : DataFrame :=
  [("region", Object [Some (SStr "a"); Some (SStr "b"); Some (SStr "c");
                      Some (SStr "d")]);
   ("revenue", Numeric [0%float; 0%float; 1%float; 1%float])].

(* ================================================================== *)
(** * Specification vocabulary

    Definitions the statements below are phrased with: the per-column effect
    of the loops, the label test of the month column, the sequential outlier
    procedure in the spec's words, what a claim needs of the argsort, and the
    sample frames. *)

(** Whether a loop over the labels [names] visits the column [name]. *)
Definition visited (names : list string) (name : string) : bool :=
  existsb (String.eqb name) names.

(** A rewrite of float data, applied to a numeric column only. *)
Definition on_floats (f : list float -> list float) (c : column) : column :=
  match c with
  | Numeric xs => Numeric (f xs)
  | _ => c
  end.

(** Whether a raw month value is one of the twelve labels. *)
Definition month_label (v : cell) : bool :=
  match v with
  | Some (SStr s) =>
      existsb (String.eqb s)
              ["Jan"; "Feb"; "Mar"; "Apr"; "May"; "Jun";
               "Jul"; "Aug"; "Sep"; "Oct"; "Nov"; "Dec"]
  | _ => false
  end.

(** The code of a raw month value in the twelve-label categorical: its
    position in the calendar, or none for anything else. *)
Definition month_number (v : cell) : option nat :=
  match v with
  | Some (SStr s) =>
      if String.eqb s "Jan" then Some 0
      else if String.eqb s "Feb" then Some 1
      else if String.eqb s "Mar" then Some 2
      else if String.eqb s "Apr" then Some 3
      else if String.eqb s "May" then Some 4
      else if String.eqb s "Jun" then Some 5
      else if String.eqb s "Jul" then Some 6
      else if String.eqb s "Aug" then Some 7
      else if String.eqb s "Sep" then Some 8
      else if String.eqb s "Oct" then Some 9
      else if String.eqb s "Nov" then Some 10
      else if String.eqb s "Dec" then Some 11
      else None
  | _ => None
  end.

(** Whether a cast to bool yields a bool column: every column does, except a
    categorical one with a missing entry. *)
Definition casts_to_bool (c : column) : bool :=
  match c with
  | Categorical _ _ codes => negb (existsb missing_code codes)
  | _ => true
  end.



(** The frame [convert_columns] leaves when the three columns are there. *)
Definition converted (df : DataFrame) (month weekend revenue : column)
  : DataFrame :=
  set_col "revenue" (astype_bool revenue)
    (set_col "weekend" (astype_bool weekend)
       (set_col "month"
          (pd_Categorical (column_values month) month_categories true) df)).



(** What [fix_skew] does to the data of one numeric column. *)
Definition skew_corrected (log1p : float -> float)
           (pow : float -> float -> float) (threshold : float)
           (xs : list float) : list float :=
  if PrimFloat.ltb threshold (PrimFloat.abs (series_skew pow xs))
  then map log1p xs
  else xs.


(** The lower and upper IQR fences of a column's values. *)
Definition iqr_bounds (xs : list float) : float * float :=
  let Q1 := series_quantile xs 0.25%float in
  let Q3 := series_quantile xs 0.75%float in
  let IQR := PrimFloat.sub Q3 Q1 in
  (PrimFloat.sub Q1 (PrimFloat.mul 1.5%float IQR),
   PrimFloat.add Q3 (PrimFloat.mul 1.5%float IQR)).

(** The rows a pass over a column keeps: those not strictly outside the
    fences. *)
Definition keep_mask (xs : list float) : list bool :=
  map (fun x => negb (PrimFloat.ltb x (fst (iqr_bounds xs))
                      || PrimFloat.ltb (snd (iqr_bounds xs)) x)) xs.




Definition one_to_five_and_100 : DataFrame :=
  [("x", Numeric [1%float; 2%float; 3%float; 4%float; 5%float; 100%float])].

Definition one_to_five : DataFrame :=
  [("x", Numeric [1%float; 2%float; 3%float; 4%float; 5%float])].

Definition two_stragglers : DataFrame :=
  [("x", Numeric [1%float; 2%float; 3%float; 4%float; 5%float; 10%float;
                  100%float])].




(** What the result needs of numpy's argsort on the items at hand: the
    returned positions are a permutation and put the items in ascending
    order. *)
Definition sorts_ascending (items : list float) (p : list nat) : Prop :=
  Permutation p (seq 0 (List.length items)) /\
  StronglySorted
    (fun i j => PrimFloat.leb (nth i items PrimFloat.nan)
                              (nth j items PrimFloat.nan) = true) p.

(** The positions, counted from [a], of the items that satisfy [f]. *)
Definition positions (f : float -> bool) (xs : list float) (a : nat)
  : list nat :=
  select (map f xs) (seq a (List.length xs)).

(** The spec's three sample rows. *)
Definition three_sales : DataFrame :=
  [("region", Object [Some (SStr "A"); Some (SStr "B"); Some (SStr "A")]);
   ("revenue", Numeric [10%float; 30%float; 5%float])].

(** What [impute_missing] does to the data of one numeric column. *)
Definition imputed (strategy : string) (xs : list float) : list float :=
  if String.eqb strategy "median" then fillna (series_median xs) xs
  else if String.eqb strategy "mean" then fillna (series_mean xs) xs
  else xs.

(** The mask that selects in one step what [m1] and then [m2] select. *)
Fixpoint compose_mask (m1 m2 : list bool) : list bool :=
  match m1 with
  | [] => []
  | true :: r1 =>
      match m2 with
      | [] => []
      | b :: r2 => b :: compose_mask r1 r2
      end
  | false :: r1 => false :: compose_mask r1 m2
  end.

(** Every column has as many entries as the frame has rows. *)
Definition aligned (df : DataFrame) : Prop :=
  Forall (fun nc => col_len (snd nc) = nrows df) df.

(** The per-type table [traffic_analysis] sorts. *)
Definition traffic_table (traffic_type : column) (xs ys : list float)
  : list TrafficRow :=
  map (fun k => (k, (group_sum (group_values k (column_values traffic_type) xs),
                     group_mean
                       (group_values k (column_values traffic_type) ys))))
      (group_keys false traffic_type).


(** Three visits over two traffic types. *)
Definition three_visits : DataFrame :=
  [("traffic_type", Numeric [1%float; 2%float; 1%float]);
   ("revenue", Boolean [true; true; true]);
   ("bounce_rates", Numeric [0.5%float; 0.25%float; 0%float])].

(* ================================================================== *)
(** * Frame lemmas *)

Lemma get_col_set_col_same name c df :
  get_col name (set_col name c df) = Some c.
Proof.
  induction df as [|[n c0] rest IH]; simpl.
  - now rewrite String.eqb_refl.
  - destruct (String.eqb n name) eqn:E; simpl; rewrite E; auto.
Qed.

Lemma get_col_set_col_other name other c df :
  name <> other -> get_col other (set_col name c df) = get_col other df.
Proof.
  intros Hne.
  induction df as [|[n c0] rest IH]; simpl.
  - destruct (String.eqb name other) eqn:E; auto.
    apply String.eqb_eq in E. contradiction.
  - destruct (String.eqb n name) eqn:E; simpl.
    + apply String.eqb_eq in E. subst n.
      destruct (String.eqb name other) eqn:E'; auto.
      apply String.eqb_eq in E'. contradiction.
    + now rewrite IH.
Qed.

Lemma columns_set_col name c c0 df :
  get_col name df = Some c0 -> columns (set_col name c df) = columns df.
Proof.
  unfold columns.
  induction df as [|[n c1] rest IH]; simpl; intros H.
  - discriminate.
  - destruct (String.eqb n name) eqn:E; simpl; auto.
    now rewrite IH.
Qed.

Lemma nrows_set_col name c c0 df :
  get_col name df = Some c0 -> col_len c = col_len c0 ->
  nrows (set_col name c df) = nrows df.
Proof.
  destruct df as [|[n c1] rest]; simpl; intros H Hlen.
  - discriminate.
  - destruct (String.eqb n name) eqn:E; simpl; auto.
    injection H as <-. exact Hlen.
Qed.

Lemma get_col_In name c df : get_col name df = Some c -> In (name, c) df.
Proof.
  induction df as [|[n c1] rest IH]; simpl; intros H.
  - discriminate.
  - destruct (String.eqb n name) eqn:E.
    + apply String.eqb_eq in E. injection H as <-. subst. now left.
    + right. auto.
Qed.

Lemma In_get_col name c df :
  NoDup (columns df) -> In (name, c) df -> get_col name df = Some c.
Proof.
  unfold columns.
  induction df as [|[n c1] rest IH]; simpl; intros Hnd Hin.
  - contradiction.
  - inversion Hnd as [|? ? Hnotin Hnd']; subst.
    destruct Hin as [Heq|Hin].
    + injection Heq as -> ->. now rewrite String.eqb_refl.
    + destruct (String.eqb n name) eqn:E.
      * apply String.eqb_eq in E. subst n. exfalso. apply Hnotin.
        change name with (fst (name, c)). now apply in_map.
      * auto.
Qed.

Lemma col_len_values c : List.length (column_values c) = col_len c.
Proof. destruct c; simpl; now rewrite ?length_map. Qed.

Lemma select_dtypes_number_In name df :
  NoDup (columns df) ->
  In name (select_dtypes_number df) ->
  exists xs, get_col name df = Some (Numeric xs).
Proof.
  intros Hnd Hin. unfold select_dtypes_number in Hin.
  apply in_map_iff in Hin. destruct Hin as [[n c] [Hn Hin]].
  simpl in Hn. subst n. apply filter_In in Hin. destruct Hin as [Hin Hnum].
  destruct c; simpl in Hnum; try discriminate.
  exists xs. now apply In_get_col.
Qed.

Lemma In_select_dtypes_number name xs df :
  get_col name df = Some (Numeric xs) -> In name (select_dtypes_number df).
Proof.
  intros H. apply get_col_In in H. unfold select_dtypes_number.
  apply in_map_iff. exists (name, Numeric xs). split; auto.
  apply filter_In. auto.
Qed.

Lemma select_dtypes_number_NoDup df :
  NoDup (columns df) -> NoDup (select_dtypes_number df).
Proof.
  unfold select_dtypes_number, columns.
  induction df as [|[n c] rest IH]; simpl; intros Hnd.
  - constructor.
  - inversion Hnd as [|? ? Hnotin Hnd']; subst.
    destruct (is_number c); simpl; auto.
    constructor; auto.
    intros Hin. apply Hnotin. apply in_map_iff in Hin.
    destruct Hin as [nc [Hn Hin]]. apply filter_In in Hin.
    apply in_map_iff. exists nc. tauto.
Qed.

(** ** Loops that rewrite numeric columns one label at a time *)

Lemma visited_false names n : ~ In n names -> visited names n = false.
Proof.
  unfold visited. induction names as [|a rest IH]; simpl; intros H; auto.
  destruct (String.eqb n a) eqn:E; simpl.
  - apply String.eqb_eq in E. subst. tauto.
  - apply IH. tauto.
Qed.

Lemma visited_true names n : In n names -> visited names n = true.
Proof.
  unfold visited. intros H. apply existsb_exists. exists n.
  split; auto. apply String.eqb_refl.
Qed.

Lemma for_each_rewrites (f : list float -> list float)
      (body : string -> M unit) (names : list string) :
  (forall xs, List.length (f xs) = List.length xs) ->
  (forall col xs df, get_col col df = Some (Numeric xs) ->
                     body col df = (set_col col (Numeric (f xs)) df, Ok tt)) ->
  forall df,
    NoDup names ->
    (forall n, In n names -> exists xs, get_col n df = Some (Numeric xs)) ->
    exists df',
      for_each names body df = (df', Ok tt) /\
      columns df' = columns df /\
      nrows df' = nrows df /\
      forall n, get_col n df' =
                if visited names n then option_map (on_floats f) (get_col n df)
                else get_col n df.
Proof.
  intros Hlen Hbody.
  induction names as [|a rest IH]; intros df Hnd Hnum.
  - exists df. simpl. repeat split; auto.
  - inversion Hnd as [|? ? Hnotin Hnd']; subst.
    destruct (Hnum a (or_introl eq_refl)) as [xs Ha].
    pose (df1 := set_col a (Numeric (f xs)) df).
    assert (Hother : forall n, n <> a -> get_col n df1 = get_col n df).
    { intros n Hne. apply get_col_set_col_other. congruence. }
    destruct (IH df1 Hnd') as [df' [Hrun [Hcols [Hrows Hget]]]].
    { intros n Hin. destruct (Hnum n (or_intror Hin)) as [ys Hn].
      exists ys. rewrite Hother; auto. intros ->. contradiction. }
    exists df'. split; [|split; [|split]].
    + simpl. unfold bind. rewrite (Hbody a xs df Ha). exact Hrun.
    + rewrite Hcols. eapply columns_set_col; eauto.
    + rewrite Hrows. eapply nrows_set_col; [exact Ha | simpl; apply Hlen].
    + intros n. rewrite Hget. unfold visited at 2. simpl.
      destruct (String.eqb n a) eqn:E; simpl.
      * apply String.eqb_eq in E. subst n.
        rewrite (visited_false rest a Hnotin).
        unfold df1. rewrite get_col_set_col_same, Ha. reflexivity.
      * fold (visited rest n).
        rewrite Hother; auto. intros ->. rewrite String.eqb_refl in E.
        discriminate.
Qed.

Lemma set_col_unchanged name c df :
  get_col name df = Some c -> set_col name c df = df.
Proof.
  induction df as [|[n c0] rest IH]; simpl; intros H.
  - discriminate.
  - destruct (String.eqb n name) eqn:E.
    + now injection H as ->.
    + now rewrite IH.
Qed.

Lemma for_each_skip {A : Type} (l : list A) df :
  for_each l (fun _ => ret tt) df = (df, Ok tt).
Proof. induction l as [|a rest IH]; simpl; auto. Qed.

(** NaN is a single value of Rocq's binary64. *)
Lemma isna_nan x : isna x = true -> x = PrimFloat.nan.
Proof.
  unfold isna. intros H. apply Prim2SF_inj.
  unfold Prim2SF at 1. now rewrite H.
Qed.



Ltac nodup_labels :=
  repeat (constructor; [simpl; intuition discriminate|]); constructor.

(* ================================================================== *)
(** * NullImputer: [impute_missing] *)

Lemma impute_body (stat : list float -> float) col xs df :
  get_col col df = Some (Numeric xs) ->
  (receiver <- getitem col ;;
   series <- getitem col ;;
   ys <- float_data series ;;
   fillna_inplace col receiver (stat ys)) df
  = (set_col col (Numeric (fillna (stat xs) xs)) df, Ok tt).
Proof.
  intros H. unfold bind, getitem, fillna_inplace. rewrite H. simpl.
  unfold bind. simpl. rewrite H. reflexivity.
Qed.




(** C6 (as the code has it).  A strategy other than [median] and [mean] is
    not rejected: the loop does nothing for it, the call succeeds and the
    frame is returned exactly as it was. *)
Theorem impute_missing_unknown_strategy strategy df :
  strategy <> "median" -> strategy <> "mean" ->
  impute_missing strategy df = (df, Ok df).
Proof.
  intros Hmedian Hmean.
  unfold impute_missing, bind at 1, number_labels.
  destruct (String.eqb strategy "median") eqn:E1.
  { apply String.eqb_eq in E1. contradiction. }
  destruct (String.eqb strategy "mean") eqn:E2.
  { apply String.eqb_eq in E2. contradiction. }
  unfold bind. now rewrite for_each_skip.
Qed.

Lemma impute_missing_unknown_strategy_witness :
  "mode" <> "median" /\ "mode" <> "mean" /\
  impute_missing "mode" raw_sessions = (raw_sessions, Ok raw_sessions).
Proof.
  split; [discriminate|]. split; [discriminate|].
  apply impute_missing_unknown_strategy; discriminate.
Defined.

(** C6, refuted as stated: with the unknown strategy [mode], on a frame with
    missing numeric entries, no error of any kind is raised. *)
Lemma impute_missing_mode_not_rejected :
  "mode" <> "median" /\ "mode" <> "mean" /\
  forall e, snd (impute_missing "mode" raw_sessions) <> Raise e.
Proof.
  split; [discriminate|]. split; [discriminate|].
  intros e. vm_compute. discriminate.
Qed.

(* ================================================================== *)
(** * TypeNormalizer: [convert_columns] *)

Lemma convert_columns_run df month weekend revenue :
  get_col "month" df = Some month ->
  get_col "weekend" df = Some weekend ->
  get_col "revenue" df = Some revenue ->
  convert_columns df =
  (converted df month weekend revenue, Ok (converted df month weekend revenue)).
Proof.
  intros Hm Hw Hr.
  unfold convert_columns, converted, bind, getitem, setitem, this.
  rewrite Hm.
  rewrite get_col_set_col_other by discriminate. rewrite Hw.
  rewrite !get_col_set_col_other by discriminate. rewrite Hr.
  reflexivity.
Qed.

Lemma month_code_spec v :
  (month_label v = true /\
   exists k, categorical_code month_categories v = Some k /\
             nth_error month_categories k = v) \/
  (month_label v = false /\ categorical_code month_categories v = None).
Proof.
  destruct v as [[b|x|s]|].
  - right. split; reflexivity.
  - right. split; [reflexivity|].
    unfold categorical_code. destruct (cell_isna (Some (SNum x))); reflexivity.
  - unfold month_label, categorical_code, month_categories. simpl.
    repeat match goal with
           | |- context [String.eqb s ?l] =>
               destruct (String.eqb_spec s l);
               [subst s; left; split; [reflexivity|eexists; split; reflexivity]
               |simpl]
           end.
    right. split; reflexivity.
  - right. split; reflexivity.
Qed.

Lemma month_code_reads v :
  match categorical_code month_categories v with
  | Some k => nth_error month_categories k
  | None => Some (SNum PrimFloat.nan)
  end = if month_label v then v else Some (SNum PrimFloat.nan).
Proof.
  destruct (month_code_spec v) as [[-> [k [-> Hk]]]|[-> ->]]; auto.
Qed.

(** C3.  [convert_columns] does not make [weekend] boolean on every frame
    that has the three columns: on [categorical_weekend], whose weekend
    column is already categorical and has a missing entry, the call succeeds,
    [month] and [revenue] are converted and the row count is kept, yet
    [weekend] comes back as an object column that still holds the missing
    entry.  Only a second call makes it boolean, the missing entry then
    reading True. *)
Theorem convert_columns_categorical_weekend :
  exists df',
    convert_columns categorical_weekend = (df', Ok df') /\
    get_col "month" df'
    = Some (Categorical month_categories true [Some 0; Some 1; Some 2]) /\
    get_col "revenue" df' = Some (Boolean [false; true; true]) /\
    get_col "weekend" df'
    = Some (Object [Some (SBool true); Some (SNum PrimFloat.nan);
                    Some (SBool false)]) /\
    In ("weekend", DObject) (describe_columns df') /\
    In ("weekend", 1) (count_nulls df') /\
    nrows df' = nrows categorical_weekend /\
    get_col "weekend" (fst (convert_columns df'))
    = Some (Boolean [true; true; false]).
Proof.
  eexists. split; [reflexivity|].
  repeat split; try reflexivity.
  - right. left. reflexivity.
  - right. left. reflexivity.
Qed.

(** C10.  [convert_columns] raises nothing but a [KeyError] for an absent
    column, whatever the month values are; once the month column is there it
    is replaced by the ordered categorical in which every value among the
    twelve labels reads back unchanged and every other value reads back
    missing (NaN). *)
Theorem convert_columns_month_values df :
  (forall e, snd (convert_columns df) = Raise e ->
             e = KeyError "month" \/ e = KeyError "weekend" \/
             e = KeyError "revenue") /\
  (forall month,
      get_col "month" df = Some month ->
      exists codes,
        get_col "month" (fst (convert_columns df))
        = Some (Categorical month_categories true codes) /\
        column_values (Categorical month_categories true codes)
        = map (fun v => if month_label v then v else Some (SNum PrimFloat.nan))
              (column_values month)).
Proof.
  unfold convert_columns, bind, getitem, setitem, this.
  destruct (get_col "month" df) as [month|] eqn:Hm.
  2:{ split; [|discriminate]. simpl. intros e H. injection H as <-. auto. }
  rewrite get_col_set_col_other by discriminate.
  destruct (get_col "weekend" df) as [weekend|] eqn:Hw.
  2:{ split.
      - simpl. intros e H. injection H as <-. auto.
      - intros m H. injection H as <-. simpl.
        rewrite get_col_set_col_same. eexists. split; [reflexivity|].
        simpl. rewrite map_map. apply map_ext. intros v.
        apply month_code_reads. }
  rewrite !get_col_set_col_other by discriminate.
  destruct (get_col "revenue" df) as [revenue|] eqn:Hr.
  - split; [simpl; discriminate|].
    intros m H. injection H as <-. simpl.
    rewrite !get_col_set_col_other by discriminate.
    rewrite get_col_set_col_same. eexists. split; [reflexivity|].
    simpl. rewrite map_map. apply map_ext. intros v. apply month_code_reads.
  - split.
    + simpl. intros e H. injection H as <-. auto.
    + intros m H. injection H as <-. simpl.
      rewrite get_col_set_col_other by discriminate.
      rewrite get_col_set_col_same. eexists. split; [reflexivity|].
      simpl. rewrite map_map. apply map_ext. intros v.
      apply month_code_reads.
Qed.

Lemma convert_columns_month_values_witness :
  get_col "month" raw_sessions
  = Some (Object [Some (SStr "Jan"); Some (SStr "Foo"); None;
                  Some (SStr "Dec")]) /\
  exists codes,
    get_col "month" (fst (convert_columns raw_sessions))
    = Some (Categorical month_categories true codes) /\
    column_values (Categorical month_categories true codes)
    = [Some (SStr "Jan"); Some (SNum PrimFloat.nan);
       Some (SNum PrimFloat.nan); Some (SStr "Dec")].
Proof.
  split; [reflexivity|].
  destruct (proj2 (convert_columns_month_values raw_sessions) _ eq_refl)
    as [codes [Hget Hvalues]].
  exists codes. split; [exact Hget|]. rewrite Hvalues. reflexivity.
Defined.

(** C5 (as the code has it).  A month value outside the twelve labels does
    not make [convert_columns] fail: with the three columns present the call
    succeeds and the entry is stored as the missing code. *)
Theorem convert_columns_bad_month_accepted df month weekend revenue i v :
  get_col "month" df = Some month ->
  get_col "weekend" df = Some weekend ->
  get_col "revenue" df = Some revenue ->
  nth_error (column_values month) i = Some v ->
  month_label v = false ->
  exists df' codes,
    convert_columns df = (df', Ok df') /\
    get_col "month" df' = Some (Categorical month_categories true codes) /\
    nth_error codes i = Some None.
Proof.
  intros Hm Hw Hr Hi Hv.
  exists (converted df month weekend revenue).
  exists (map (categorical_code month_categories) (column_values month)).
  split; [now apply convert_columns_run|]. split.
  - unfold converted. rewrite !get_col_set_col_other by discriminate.
    now rewrite get_col_set_col_same.
  - rewrite nth_error_map, Hi. simpl.
    destruct (month_code_spec v) as [[Hl _]|[_ ->]]; congruence.
Qed.

Lemma convert_columns_bad_month_accepted_witness :
  nth_error
    (column_values (Object [Some (SStr "Jan"); Some (SStr "Foo"); None;
                            Some (SStr "Dec")])) 1
  = Some (Some (SStr "Foo")) /\
  month_label (Some (SStr "Foo")) = false /\
  exists df' codes,
    convert_columns raw_sessions = (df', Ok df') /\
    get_col "month" df' = Some (Categorical month_categories true codes) /\
    nth_error codes 1 = Some None.
Proof.
  split; [reflexivity|]. split; [reflexivity|].
  exact (convert_columns_bad_month_accepted
           raw_sessions _ _ _ 1 (Some (SStr "Foo"))
           eq_refl eq_refl eq_refl eq_refl eq_refl).
Defined.

(** C5, refuted as stated: the month column of [raw_sessions] holds ["Foo"],
    yet the call raises nothing and the frame is updated. *)
Lemma convert_columns_bad_month_no_error :
  get_col "month" raw_sessions
  = Some (Object [Some (SStr "Jan"); Some (SStr "Foo"); None;
                  Some (SStr "Dec")]) /\
  month_label (Some (SStr "Foo")) = false /\
  (forall e, snd (convert_columns raw_sessions) <> Raise e) /\
  fst (convert_columns raw_sessions) <> raw_sessions.
Proof.
  split; [reflexivity|]. split; [reflexivity|]. split.
  - intros e. vm_compute. discriminate.
  - vm_compute. discriminate.
Qed.

(** The one failure the function has is not atomic: with [weekend] absent the
    [KeyError] is raised after [month] has been replaced in the caller's
    frame. *)
Remark convert_columns_partial_update :
  convert_columns no_weekend
  = ([("month", Categorical month_categories true [Some 0]);
      ("revenue", Numeric [1%float])],
     Raise (KeyError "weekend")).
Proof. reflexivity. Qed.

(* ================================================================== *)
(** * SkewCorrector: [fix_skew] *)

Lemma fix_skew_body log1p pow threshold col xs df :
  get_col col df = Some (Numeric xs) ->
  (series <- getitem col ;;
   ys <- float_data series ;;
   if PrimFloat.ltb threshold (PrimFloat.abs (series_skew pow ys)) then
     arg <- getitem col ;;
     zs <- float_data arg ;;
     setitem col (Numeric (map log1p zs))
   else ret tt) df
  = (set_col col (Numeric (skew_corrected log1p pow threshold xs)) df, Ok tt).
Proof.
  intros H. unfold bind, getitem, skew_corrected. rewrite H. simpl.
  destruct (PrimFloat.ltb threshold (PrimFloat.abs (series_skew pow xs))).
  - rewrite H. reflexivity.
  - unfold ret. now rewrite set_col_unchanged.
Qed.

(** Whatever the loop body does, the call succeeds on a frame with unique
    labels and rewrites each numeric column by [skew_corrected]. *)
Lemma fix_skew_columns log1p pow threshold df :
  NoDup (columns df) ->
  exists df',
    fix_skew log1p pow threshold df = (df', Ok df') /\
    columns df' = columns df /\
    nrows df' = nrows df /\
    forall n, get_col n df'
              = option_map (on_floats (skew_corrected log1p pow threshold))
                           (get_col n df).
Proof.
  intros Hnd.
  destruct (for_each_rewrites
              (skew_corrected log1p pow threshold)
              (fun col =>
                 series <- getitem col ;;
                 ys <- float_data series ;;
                 if PrimFloat.ltb threshold
                                  (PrimFloat.abs (series_skew pow ys)) then
                   arg <- getitem col ;;
                   zs <- float_data arg ;;
                   setitem col (Numeric (map log1p zs))
                 else ret tt)
              (select_dtypes_number df)) with (df := df)
    as [df' [Hrun [Hcols [Hrows Hget]]]].
  - intros xs. unfold skew_corrected.
    destruct (PrimFloat.ltb _ _); auto. apply length_map.
  - intros col xs d H. now apply fix_skew_body.
  - now apply select_dtypes_number_NoDup.
  - intros n Hin. now apply select_dtypes_number_In.
  - exists df'. split; [|split; [exact Hcols|split; [exact Hrows|]]].
    + unfold fix_skew, bind at 1, number_labels. cbv beta iota.
      unfold bind at 1. rewrite Hrun. reflexivity.
    + intros n. rewrite Hget.
      destruct (visited (select_dtypes_number df) n) eqn:V; auto.
      destruct (get_col n df) as [c|] eqn:Hc; auto.
      assert (Hnn : is_number c = false).
      { destruct c; auto.
        apply In_select_dtypes_number, visited_true in Hc. congruence. }
      destruct c; simpl in *; auto; discriminate.
Qed.







(* ================================================================== *)
(** * OutlierFilter: [remove_outliers] *)


Lemma select_length_le {A : Type} mask (xs : list A) :
  List.length (select mask xs) <= List.length xs.
Proof.
  revert xs. induction mask as [|m mask IH]; intros [|x xs]; simpl; try lia.
  destruct m; simpl; specialize (IH xs); lia.
Qed.


Lemma col_select_len_le mask c : col_len (col_select mask c) <= col_len c.
Proof. destruct c; simpl; apply select_length_le. Qed.

Lemma get_col_select_rows name mask df :
  get_col name (select_rows mask df)
  = option_map (col_select mask) (get_col name df).
Proof.
  induction df as [|[n c] rest IH]; simpl; auto.
  destruct (String.eqb n name); auto.
Qed.

Lemma columns_select_rows mask df : columns (select_rows mask df) = columns df.
Proof.
  unfold columns, select_rows. rewrite map_map. now apply map_ext.
Qed.

Lemma nrows_select_rows_le mask df : nrows (select_rows mask df) <= nrows df.
Proof. destruct df as [|[n c] rest]; simpl; auto using col_select_len_le. Qed.

Lemma frame_floats_numeric df col xs :
  get_col col df = Some (Numeric xs) -> frame_floats df col = Ok xs.
Proof.
  intros H. unfold frame_floats, bind, getitem. now rewrite H.
Qed.

Lemma remove_outliers_shrinks columns_ df df' :
  remove_outliers df columns_ = Ok df' ->
  nrows df' <= nrows df /\ columns df' = columns df.
Proof.
  revert df. induction columns_ as [|col rest IH]; simpl; intros df H.
  - injection H as <-. auto.
  - destruct (frame_floats df col) as [xs|e]; [|discriminate].
    apply IH in H. destruct H as [Hle Hcols].
    rewrite Hcols, columns_select_rows. split; auto.
    eapply Nat.le_trans; [exact Hle|apply nrows_select_rows_le].
Qed.





(** C8 (as the code has it).  On the column [1,2,3,4,5,100] the first pass
    removes exactly [100] and a second pass removes nothing.  In general a
    second pass with the same columns recomputes the fences over the rows
    that are left: it never adds rows, and nothing makes it a no-op. *)
Theorem remove_outliers_second_pass :
  remove_outliers one_to_five_and_100 ["x"] = Ok one_to_five /\
  remove_outliers one_to_five ["x"] = Ok one_to_five /\
  (forall columns_ df df1 df2,
      remove_outliers df columns_ = Ok df1 ->
      remove_outliers df1 columns_ = Ok df2 ->
      nrows df2 <= nrows df1 /\ nrows df1 <= nrows df /\
      columns df2 = columns df).
Proof.
  split; [reflexivity|]. split; [reflexivity|].
  intros columns_ df df1 df2 H1 H2.
  apply remove_outliers_shrinks in H1. apply remove_outliers_shrinks in H2.
  destruct H1 as [Hle1 Hc1], H2 as [Hle2 Hc2]. rewrite Hc2, Hc1. auto.
Qed.

Lemma remove_outliers_second_pass_witness :
  remove_outliers two_stragglers ["x"]
  = Ok [("x", Numeric [1%float; 2%float; 3%float; 4%float; 5%float;
                       10%float])] /\
  remove_outliers
    [("x", Numeric [1%float; 2%float; 3%float; 4%float; 5%float; 10%float])]
    ["x"] = Ok one_to_five /\
  nrows one_to_five <= 6 /\ 6 <= nrows two_stragglers.
Proof.
  assert (H1 : remove_outliers two_stragglers ["x"]
               = Ok [("x", Numeric [1%float; 2%float; 3%float; 4%float;
                                    5%float; 10%float])]) by reflexivity.
  assert (H2 : remove_outliers
                 [("x", Numeric [1%float; 2%float; 3%float; 4%float; 5%float;
                                 10%float])] ["x"] = Ok one_to_five)
    by reflexivity.
  split; [exact H1|]. split; [exact H2|].
  destruct (proj2 (proj2 remove_outliers_second_pass) _ _ _ _ H1 H2)
    as [Ha [Hb _]].
  split; [exact Ha | exact Hb].
Defined.

(** C8, refuted as stated: on [1,2,3,4,5,10,100] the first pass removes [100]
    only (fences [-5] and [15]); the second pass then removes [10] (fences
    [-1.5] and [8.5]). *)
Lemma remove_outliers_not_idempotent :
  exists df1 df2,
    remove_outliers two_stragglers ["x"] = Ok df1 /\
    remove_outliers df1 ["x"] = Ok df2 /\
    iqr_bounds [1%float; 2%float; 3%float; 4%float; 5%float; 10%float;
                100%float] = ((-5)%float, 15%float) /\
    iqr_bounds [1%float; 2%float; 3%float; 4%float; 5%float; 10%float]
    = ((-1.5)%float, 8.5%float) /\
    nrows df1 = 6 /\ nrows df2 = 5 /\ df2 <> df1.
Proof.
  exists [("x", Numeric [1%float; 2%float; 3%float; 4%float; 5%float;
                         10%float])], one_to_five.
  repeat split; try reflexivity. discriminate.
Qed.

(* ================================================================== *)
(** * Aggregator: [weekend_sales_analysis] *)









(* ================================================================== *)
(** * Aggregator: [regional_revenue_analysis] *)

Section StronglySortedFacts.

Context {A : Type}.
Implicit Types (R : A -> A -> Prop) (l : list A).

Lemma SSorted_all R l :
  (forall x y, In x l -> In y l -> R x y) -> StronglySorted R l.
Proof.
  induction l as [|a l IH]; intros H; constructor.
  - apply IH. intros x y Hx Hy. apply H; now right.
  - apply Forall_forall. intros y Hy. apply H; [now left|now right].
Qed.

Lemma SSorted_weaken R R' l :
  StronglySorted R l ->
  (forall x y, In x l -> In y l -> R x y -> R' x y) ->
  StronglySorted R' l.
Proof.
  induction 1 as [|a l Hs IH Ha]; intros Himp; constructor.
  - apply IH. intros x y Hx Hy. apply Himp; now right.
  - rewrite Forall_forall in *. intros y Hy.
    apply Himp; [now left|now right|auto].
Qed.

Lemma SSorted_app R l1 l2 :
  StronglySorted R l1 -> StronglySorted R l2 ->
  (forall x y, In x l1 -> In y l2 -> R x y) ->
  StronglySorted R (l1 ++ l2).
Proof.
  induction 1 as [|a l Hs IH Ha]; intros H2 Hcross; simpl; auto.
  constructor.
  - apply IH; auto. intros x y Hx Hy. apply Hcross; auto. now right.
  - apply Forall_app. split; auto.
    apply Forall_forall. intros y Hy. apply Hcross; auto. now left.
Qed.

Lemma SSorted_rev R l :
  StronglySorted (fun a b => R b a) l -> StronglySorted R (rev l).
Proof.
  induction 1 as [|a l Hs IH Ha]; simpl; [constructor|].
  apply SSorted_app; auto.
  - repeat constructor.
  - intros x y Hx [<-|[]]. rewrite Forall_forall in Ha.
    apply Ha. now apply in_rev.
Qed.

End StronglySortedFacts.

Lemma SSorted_map {A B : Type} (f : A -> B) (R : B -> B -> Prop) l :
  StronglySorted (fun a b => R (f a) (f b)) l -> StronglySorted R (map f l).
Proof.
  induction 1 as [|a l Hs IH Ha]; simpl; constructor; auto.
  now apply Forall_map.
Qed.

(** ** Masks and positions *)

Lemma select_filter {A : Type} (f : A -> bool) (xs : list A) :
  select (map f xs) xs = filter f xs.
Proof.
  induction xs as [|x xs IH]; simpl; auto. destruct (f x); now rewrite IH.
Qed.

Lemma positions_cons f x xs a :
  positions f (x :: xs) a
  = if f x then a :: positions f xs (S a) else positions f xs (S a).
Proof. reflexivity. Qed.

Lemma positions_bounds f xs a i :
  In i (positions f xs a) -> a <= i < a + List.length xs.
Proof.
  revert a. induction xs as [|x xs IH]; intros a; [intros []|].
  rewrite positions_cons. simpl List.length.
  destruct (f x); simpl; intros H.
  - destruct H as [<-|H]; [lia|]. apply IH in H. lia.
  - apply IH in H. lia.
Qed.

Lemma positions_values f xs a d :
  map (fun i => nth (i - a) xs d) (positions f xs a) = filter f xs.
Proof.
  revert a. induction xs as [|x xs IH]; intros a; [reflexivity|].
  rewrite positions_cons. simpl filter.
  assert (Htail : map (fun i => nth (i - a) (x :: xs) d)
                      (positions f xs (S a)) = filter f xs).
  { rewrite <- (IH (S a)). apply map_ext_in. intros i Hi.
    apply positions_bounds in Hi.
    replace (i - a) with (S (i - S a)) by lia. reflexivity. }
  destruct (f x).
  - rewrite map_cons, Htail, Nat.sub_diag. reflexivity.
  - exact Htail.
Qed.

Lemma positions_partition f xs a :
  Permutation (positions f xs a ++ positions (fun x => negb (f x)) xs a)
              (seq a (List.length xs)).
Proof.
  revert a. induction xs as [|x xs IH]; intros a; [constructor|].
  rewrite !positions_cons. simpl seq. destruct (f x); simpl.
  - constructor. apply IH.
  - symmetry. apply Permutation_cons_app. symmetry. apply IH.
Qed.

(** ** Positional take *)

Lemma take_map {A : Type} (p : list nat) (l : list A) d :
  Forall (fun i => i < List.length l) p ->
  take p l = map (fun i => nth i l d) p.
Proof.
  unfold take. induction 1 as [|i p Hi Hp IH]; simpl; auto.
  rewrite (nth_error_nth' l d Hi), IH. reflexivity.
Qed.

Lemma take_seq {A : Type} (l1 l2 : list A) :
  take (seq (List.length l1) (List.length l2)) (l1 ++ l2) = l2.
Proof.
  revert l1. induction l2 as [|x l2 IH]; intros l1; [reflexivity|].
  simpl seq. unfold take. simpl flat_map.
  rewrite nth_error_app2, Nat.sub_diag by lia. simpl.
  f_equal. specialize (IH (l1 ++ [x])).
  rewrite length_app, Nat.add_1_r, <- app_assoc in IH. exact IH.
Qed.

Lemma take_permutation {A : Type} (p : list nat) (l : list A) :
  Permutation p (seq 0 (List.length l)) -> Permutation (take p l) l.
Proof.
  intros H. unfold take.
  rewrite (Permutation_flat_map _ H).
  change (Permutation (take (seq (List.length (@nil A)) (List.length l))
                            ([] ++ l)) l).
  now rewrite take_seq.
Qed.

Lemma positions_holds f xs a d i :
  In i (positions f xs a) -> f (nth (i - a) xs d) = true.
Proof.
  revert a. induction xs as [|x xs IH]; intros a; [intros []|].
  rewrite positions_cons.
  assert (Htail : In i (positions f xs (S a)) ->
                  f (nth (i - a) (x :: xs) d) = true).
  { intros H. pose proof (positions_bounds _ _ _ _ H).
    replace (i - a) with (S (i - S a)) by lia. now apply IH. }
  destruct (f x) eqn:E; auto.
  intros [<-|H]; auto. now rewrite Nat.sub_diag.
Qed.

(** ** The descending indexer *)

Lemma nargsort_desc_unfold argsort items :
  nargsort_desc argsort items
  = rev (take (argsort (rev (dropna items)))
              (rev (positions notna items 0)))
    ++ positions isna items 0.
Proof.
  unfold nargsort_desc, positions, dropna. cbv zeta.
  rewrite map_map. change (fun x => negb (isna x)) with notna.
  now rewrite select_filter.
Qed.

Lemma nargsort_desc_sorted argsort items :
  sorts_ascending (rev (dropna items)) (argsort (rev (dropna items))) ->
  Permutation (nargsort_desc argsort items) (seq 0 (List.length items)) /\
  StronglySorted
    (fun i j => isna (nth j items PrimFloat.nan) = true \/
                PrimFloat.leb (nth j items PrimFloat.nan)
                              (nth i items PrimFloat.nan) = true)
    (nargsort_desc argsort items).
Proof.
  intros [Hperm Hsorted]. rewrite nargsort_desc_unfold.
  set (L := positions notna items 0).
  set (N := positions isna items 0).
  set (nn := rev (dropna items)) in *.
  set (p := argsort nn) in *.
  assert (HLval : map (fun i => nth i items PrimFloat.nan) L = dropna items).
  { unfold L, dropna. rewrite <- (positions_values notna items 0 PrimFloat.nan).
    apply map_ext. intros i. now rewrite Nat.sub_0_r. }
  assert (HLlen : List.length (rev L) = List.length nn).
  { unfold nn. now rewrite !length_rev, <- HLval, length_map. }
  assert (Hp : forall k, In k p -> k < List.length (rev L)).
  { intros k Hk. apply (Permutation_in _ Hperm) in Hk.
    apply in_seq in Hk. lia. }
  assert (HA : take p (rev L) = map (fun k => nth k (rev L) 0) p).
  { apply take_map. now apply Forall_forall. }
  assert (Hnn : forall k, k < List.length (rev L) ->
                  nth k nn PrimFloat.nan
                  = nth (nth k (rev L) 0) items PrimFloat.nan).
  { intros k Hk. unfold nn. rewrite <- HLval, <- map_rev.
    symmetry. apply nth_nth_nth_map. now left. }
  assert (HN : forall j, In j N -> isna (nth j items PrimFloat.nan) = true).
  { intros j Hj. apply (positions_holds isna items 0 PrimFloat.nan) in Hj.
    now rewrite Nat.sub_0_r in Hj. }
  rewrite HA. split.
  - transitivity (L ++ N).
    + apply Permutation_app_tail. rewrite <- Permutation_rev, <- HA.
      rewrite (Permutation_rev L) at 2. apply take_permutation.
      now rewrite HLlen.
    + rewrite Permutation_app_comm. apply (positions_partition isna items 0).
  - apply SSorted_app.
    + apply SSorted_rev, SSorted_map.
      eapply SSorted_weaken; [exact Hsorted|].
      intros k l Hk Hl Hle. right.
      now rewrite <- !Hnn by auto.
    + apply SSorted_all. intros x y _ Hy. left. auto.
    + intros x y _ Hy. left. auto.
Qed.

Lemma regional_revenue_run argsort df region revenue xs :
  get_col "region" df = Some region ->
  get_col "revenue" df = Some revenue ->
  numeric_view revenue = Some xs ->
  regional_revenue_analysis argsort df
  = (df, Ok (sort_values_desc
               argsort
               (map (fun k => (k, group_sum
                                    (group_values k (column_values region) xs)))
                    (group_keys false region)))).
Proof.
  intros Hg Hr Hx.
  unfold regional_revenue_analysis, groupby, bind, getitem, groupby_getitem,
    aggregate.
  rewrite Hg. simpl. rewrite Hr, Hx. reflexivity.
Qed.

(** C4 (as the code has it).  [regional_revenue_analysis] leaves the frame as
    it is and returns the per-region sums of revenue, one entry per group
    key, reordered so that the sums descend (missing sums last).  Nothing is
    promised on the order of regions with equal sums: it is whatever the
    argsort yields.  On the rows (A,10), (B,30), (A,5) the result is
    [(B,30), (A,15)]. *)
Theorem regional_revenue_analysis_sorted :
  (forall argsort df region revenue xs,
      get_col "region" df = Some region ->
      get_col "revenue" df = Some revenue ->
      numeric_view revenue = Some xs ->
      let sums :=
        map (fun k => (k, group_sum (group_values k (column_values region) xs)))
            (group_keys false region) in
      let non_nans := rev (dropna (map snd sums)) in
      sorts_ascending non_nans (argsort non_nans) ->
      exists result indexer,
        regional_revenue_analysis argsort df = (df, Ok result) /\
        result = take indexer sums /\
        Permutation indexer (seq 0 (List.length sums)) /\
        Permutation result sums /\
        StronglySorted
          (fun a b => isna (snd b) = true \/
                      PrimFloat.leb (snd b) (snd a) = true) result) /\
  (forall argsort,
      sorts_ascending [30%float; 15%float] (argsort [30%float; 15%float]) ->
      regional_revenue_analysis argsort three_sales
      = (three_sales, Ok [(SStr "B", 30%float); (SStr "A", 15%float)])).
Proof.
  split.
  - intros argsort df region revenue xs Hg Hr Hx sums non_nans Hsorts.
    destruct (nargsort_desc_sorted argsort (map snd sums) Hsorts)
      as [Hperm Hdesc].
    rewrite length_map in Hperm.
    exists (sort_values_desc argsort sums), (nargsort_desc argsort (map snd sums)).
    split; [exact (regional_revenue_run argsort df region revenue xs Hg Hr Hx)|].
    split; [reflexivity|]. split; [exact Hperm|].
    split; [now apply take_permutation|].
    unfold sort_values_desc.
    rewrite (take_map _ sums (SBool false, PrimFloat.nan)).
    + apply SSorted_map. eapply SSorted_weaken; [exact Hdesc|].
      intros i j _ _ H.
      now rewrite <- !(map_nth snd sums (SBool false, PrimFloat.nan)).
    + apply Forall_forall. intros i Hi.
      apply (Permutation_in _ Hperm) in Hi. apply in_seq in Hi. lia.
  - intros argsort [Hperm Hsorted].
    rewrite (regional_revenue_run
               argsort three_sales
               (Object [Some (SStr "A"); Some (SStr "B"); Some (SStr "A")])
               (Numeric [10%float; 30%float; 5%float])
               [10%float; 30%float; 5%float] eq_refl eq_refl eq_refl).
    assert (Hp : argsort [30%float; 15%float] = [1; 0]).
    { simpl in Hperm. symmetry in Hperm.
      apply Permutation_length_2_inv in Hperm.
      destruct Hperm as [Hp|Hp]; [|exact Hp].
      rewrite Hp in Hsorted. inversion Hsorted as [|? ? _ Hall]; subst.
      inversion Hall as [|? ? Hle _]; subst. discriminate Hle. }
    unfold sort_values_desc, nargsort_desc.
    change (rev (select (map negb (map isna (map snd _))) (map snd _)))
      with [30%float; 15%float].
    rewrite Hp. reflexivity.
Qed.

Lemma regional_revenue_analysis_sorted_witness :
  sorts_ascending [1%float; 1%float; 0%float; 0%float]
                  (stable_argsort [1%float; 1%float; 0%float; 0%float]) /\
  exists result indexer,
    regional_revenue_analysis stable_argsort four_regions
    = (four_regions, Ok result) /\
    result = take indexer [(SStr "a", 0%float); (SStr "b", 0%float);
                           (SStr "c", 1%float); (SStr "d", 1%float)] /\
    result = [(SStr "c", 1%float); (SStr "d", 1%float);
              (SStr "a", 0%float); (SStr "b", 0%float)] /\
    StronglySorted
      (fun a b => isna (snd b) = true \/
                  PrimFloat.leb (snd b) (snd a) = true) result.
Proof.
  assert (Hsorts : sorts_ascending
                     [1%float; 1%float; 0%float; 0%float]
                     (stable_argsort [1%float; 1%float; 0%float; 0%float])).
  { split.
    - change (Permutation [2; 3; 0; 1] [0; 1; 2; 3]).
      apply (perm_trans (l' := [2; 0; 3; 1])).
      + apply perm_skip, perm_swap.
      + apply (perm_trans (l' := [0; 2; 3; 1])); [apply perm_swap|].
        apply perm_skip.
        apply (perm_trans (l' := [2; 1; 3])); [apply perm_skip, perm_swap|].
        apply (perm_trans (l' := [1; 2; 3])); [apply perm_swap|].
        apply Permutation_refl.
    - repeat constructor. }
  split; [exact Hsorts|].
  destruct (proj1 regional_revenue_analysis_sorted stable_argsort four_regions
                  (Object [Some (SStr "a"); Some (SStr "b"); Some (SStr "c");
                           Some (SStr "d")])
                  (Numeric [0%float; 0%float; 1%float; 1%float])
                  [0%float; 0%float; 1%float; 1%float]
                  eq_refl eq_refl eq_refl Hsorts)
    as [result [indexer [Hrun [Hres [_ [_ Hdesc]]]]]].
  exists result, indexer.
  split; [exact Hrun|]. split; [exact Hres|]. split; [|exact Hdesc].
  assert (E : regional_revenue_analysis stable_argsort four_regions
              = (four_regions,
                 Ok [(SStr "c", 1%float); (SStr "d", 1%float);
                     (SStr "a", 0%float); (SStr "b", 0%float)]))
    by reflexivity.
  rewrite E in Hrun. now injection Hrun as <-.
Defined.

(** C4, refuted as stated: an argsort that sorts need not keep ties, and
    numpy's default kind does not.  With the indexer [[3, 2, 1, 0]] for the
    reversed sums [[1, 1, 0, 0]] of [four_regions] the regions come out as
    d, c, b, a: the sums descend, but both tied pairs are in reverse group-key
    order. *)
Lemma regional_revenue_ties_reversed :
  sorts_ascending [1%float; 1%float; 0%float; 0%float]
                  (unstable_argsort [1%float; 1%float; 0%float; 0%float]) /\
  unstable_argsort [1%float; 1%float; 0%float; 0%float] = [3; 2; 1; 0] /\
  group_keys false
    (Object [Some (SStr "a"); Some (SStr "b"); Some (SStr "c");
             Some (SStr "d")])
  = [SStr "a"; SStr "b"; SStr "c"; SStr "d"] /\
  regional_revenue_analysis unstable_argsort four_regions
  = (four_regions,
     Ok [(SStr "d", 1%float); (SStr "c", 1%float);
         (SStr "b", 0%float); (SStr "a", 0%float)]) /\
  snd (regional_revenue_analysis unstable_argsort four_regions)
  <> Ok [(SStr "c", 1%float); (SStr "d", 1%float);
         (SStr "a", 0%float); (SStr "b", 0%float)].
Proof.
  split; [|repeat split; try reflexivity].
  - split.
    + change (Permutation [3; 2; 1; 0] [0; 1; 2; 3]).
      rewrite (Permutation_rev [0; 1; 2; 3]). apply Permutation_refl.
    + repeat constructor.
  - vm_compute. discriminate.
Qed.

(* ================================================================== *)
(** * Further properties of the pipeline *)

(** ** Frames are determined by their labels and columns *)

Lemma get_col_absent name df : ~ In name (columns df) -> get_col name df = None.
Proof.
  unfold columns. induction df as [|[n c] rest IH]; simpl; intros H; auto.
  destruct (String.eqb n name) eqn:E.
  - apply String.eqb_eq in E. tauto.
  - apply IH. tauto.
Qed.

Lemma get_col_present name c df : get_col name df = Some c -> In name (columns df).
Proof.
  intros H. apply get_col_In in H. unfold columns.
  change name with (fst (name, c)). now apply in_map.
Qed.

Lemma frame_map_ext {B : Type} (g : column -> B) df df' :
  columns df' = columns df ->
  NoDup (columns df) ->
  (forall n, option_map g (get_col n df') = option_map g (get_col n df)) ->
  map (fun nc => (fst nc, g (snd nc))) df'
  = map (fun nc => (fst nc, g (snd nc))) df.
Proof.
  revert df'. induction df as [|[n c] rest IH]; intros [|[n' c'] rest'];
    simpl; intros Hcols Hnd Hget; try discriminate; auto.
  injection Hcols as -> Hcols.
  inversion Hnd as [|? ? Hnotin Hnd']; subst.
  pose proof (Hget n) as Hn. simpl in Hn. rewrite String.eqb_refl in Hn.
  injection Hn as ->. f_equal.
  apply IH; auto. intros m.
  destruct (String.eqb n m) eqn:E.
  - apply String.eqb_eq in E. subst m.
    rewrite !get_col_absent; auto. fold (columns rest'). now rewrite Hcols.
  - specialize (Hget m). simpl in Hget. now rewrite E in Hget.
Qed.

Lemma frame_ext df df' :
  columns df' = columns df ->
  NoDup (columns df) ->
  (forall n, get_col n df' = get_col n df) ->
  df' = df.
Proof.
  intros Hcols Hnd Hget.
  assert (Hid : forall l : DataFrame, map (fun nc => (fst nc, snd nc)) l = l).
  { induction l as [|[n c] l IH]; simpl; now rewrite ?IH. }
  rewrite <- (Hid df'), <- (Hid df).
  apply (frame_map_ext (fun c => c)); auto.
  intros n. rewrite Hget. reflexivity.
Qed.

(** ** More on [impute_missing] *)

Lemma fillna_nan xs : fillna PrimFloat.nan xs = xs.
Proof.
  unfold fillna. induction xs as [|x rest IH]; simpl; auto.
  rewrite IH. destruct (isna x) eqn:E; auto. now rewrite (isna_nan x E).
Qed.

Lemma fillna_no_missing value xs :
  forallb notna xs = true -> fillna value xs = xs.
Proof.
  unfold fillna, notna. induction xs as [|x rest IH]; simpl; auto.
  intros H. apply andb_true_iff in H. destruct H as [Hx Hrest].
  rewrite IH by assumption. destruct (isna x); auto. discriminate.
Qed.

Lemma fillna_filled value xs :
  isna value = false -> forallb notna (fillna value xs) = true.
Proof.
  intros Hv. unfold fillna, notna.
  induction xs as [|x rest IH]; simpl; auto.
  rewrite IH, andb_true_r. destruct (isna x) eqn:E; [now rewrite Hv|now rewrite E].
Qed.

Lemma dropna_no_missing xs : forallb notna xs = true -> dropna xs = xs.
Proof.
  unfold dropna. induction xs as [|x rest IH]; simpl; auto.
  intros H. apply andb_true_iff in H. destruct H as [Hx Hrest].
  now rewrite Hx, IH.
Qed.

Lemma fillna_twice (stat : list float -> float) xs :
  fillna (stat (fillna (stat xs) xs)) (fillna (stat xs) xs)
  = fillna (stat xs) xs.
Proof.
  destruct (isna (stat xs)) eqn:E.
  - rewrite (isna_nan _ E), fillna_nan. rewrite (isna_nan _ E).
    apply fillna_nan.
  - apply fillna_no_missing. now apply fillna_filled.
Qed.

Lemma imputed_twice strategy xs :
  imputed strategy (imputed strategy xs) = imputed strategy xs.
Proof.
  unfold imputed.
  destruct (String.eqb strategy "median"); [apply fillna_twice|].
  destruct (String.eqb strategy "mean"); [apply fillna_twice|reflexivity].
Qed.

Lemma imputed_length strategy xs :
  List.length (imputed strategy xs) = List.length xs.
Proof.
  unfold imputed, fillna.
  destruct (String.eqb strategy "median"); [apply length_map|].
  destruct (String.eqb strategy "mean"); [apply length_map|reflexivity].
Qed.

Lemma impute_missing_body strategy col xs df :
  get_col col df = Some (Numeric xs) ->
  (if String.eqb strategy "median" then
     receiver <- getitem col ;;
     series <- getitem col ;;
     ys <- float_data series ;;
     fillna_inplace col receiver (series_median ys)
   else if String.eqb strategy "mean" then
     receiver <- getitem col ;;
     series <- getitem col ;;
     ys <- float_data series ;;
     fillna_inplace col receiver (series_mean ys)
   else ret tt) df
  = (set_col col (Numeric (imputed strategy xs)) df, Ok tt).
Proof.
  intros H. unfold imputed.
  destruct (String.eqb strategy "median"); [now apply impute_body|].
  destruct (String.eqb strategy "mean"); [now apply impute_body|].
  unfold ret. now rewrite set_col_unchanged.
Qed.

Lemma not_visited_not_number df n c :
  visited (select_dtypes_number df) n = false ->
  get_col n df = Some c -> is_number c = false.
Proof.
  intros Hv Hc. destruct c; auto.
  apply In_select_dtypes_number, visited_true in Hc. congruence.
Qed.

(** Whatever the strategy, the call succeeds on a frame with unique labels
    and rewrites each numeric column by [imputed]. *)
Lemma impute_missing_columns strategy df :
  NoDup (columns df) ->
  exists df',
    impute_missing strategy df = (df', Ok df') /\
    columns df' = columns df /\
    forall n, get_col n df'
              = option_map (on_floats (imputed strategy)) (get_col n df).
Proof.
  intros Hnd.
  destruct (for_each_rewrites
              (imputed strategy)
              (fun col =>
                 if String.eqb strategy "median" then
                   receiver <- getitem col ;;
                   series <- getitem col ;;
                   ys <- float_data series ;;
                   fillna_inplace col receiver (series_median ys)
                 else if String.eqb strategy "mean" then
                   receiver <- getitem col ;;
                   series <- getitem col ;;
                   ys <- float_data series ;;
                   fillna_inplace col receiver (series_mean ys)
                 else ret tt)
              (select_dtypes_number df)) with (df := df)
    as [df' [Hrun [Hcols [_ Hget]]]].
  - apply imputed_length.
  - intros col xs d H. now apply impute_missing_body.
  - now apply select_dtypes_number_NoDup.
  - intros n Hin. now apply select_dtypes_number_In.
  - exists df'. split; [|split; [exact Hcols|]].
    + unfold impute_missing, bind at 1, number_labels. cbv beta iota.
      unfold bind at 1. rewrite Hrun. reflexivity.
    + intros n. rewrite Hget.
      destruct (visited (select_dtypes_number df) n) eqn:V; auto.
      destruct (get_col n df) as [c|] eqn:Hc; auto.
      pose proof (not_visited_not_number df n c V Hc).
      destruct c; simpl in *; auto; discriminate.
Qed.

(** X1.  [impute_missing] is idempotent: on a frame with unique labels a
    second call with the same strategy, whatever it is, returns the frame the
    first call left. *)
Theorem impute_missing_idempotent strategy df :
  NoDup (columns df) ->
  exists df',
    impute_missing strategy df = (df', Ok df') /\
    impute_missing strategy df' = (df', Ok df').
Proof.
  intros Hnd.
  destruct (impute_missing_columns strategy df Hnd) as [df' [Hrun [Hcols Hget]]].
  assert (Hnd' : NoDup (columns df')) by now rewrite Hcols.
  destruct (impute_missing_columns strategy df' Hnd')
    as [df'' [Hrun' [Hcols' Hget']]].
  exists df'. split; [exact Hrun|].
  assert (df'' = df') as ->; [|exact Hrun'].
  apply frame_ext; auto.
  intros n. rewrite Hget', Hget.
  destruct (get_col n df) as [[xs|bs|vs|cats o codes]|]; simpl; auto.
  now rewrite imputed_twice.
Qed.

Lemma impute_missing_idempotent_witness :
  NoDup (columns raw_sessions) /\
  exists df',
    impute_missing "mean" raw_sessions = (df', Ok df') /\
    impute_missing "mean" df' = (df', Ok df').
Proof.
  assert (Hnd : NoDup (columns raw_sessions)) by (simpl; nodup_labels).
  split; [exact Hnd|].
  exact (impute_missing_idempotent "mean" raw_sessions Hnd).
Defined.

(** X2.  When no numeric column has a missing entry, [impute_missing] is a
    no-op: the frame is returned exactly as it was, for every strategy. *)
Theorem impute_missing_nothing_missing strategy df :
  NoDup (columns df) ->
  (forall col xs, get_col col df = Some (Numeric xs) ->
                  forallb notna xs = true) ->
  impute_missing strategy df = (df, Ok df).
Proof.
  intros Hnd Hfull.
  destruct (impute_missing_columns strategy df Hnd) as [df' [Hrun [Hcols Hget]]].
  assert (df' = df) as ->; [|exact Hrun].
  apply frame_ext; auto.
  intros n. rewrite Hget.
  destruct (get_col n df) as [[xs|bs|vs|cats o codes]|] eqn:Hc; simpl; auto.
  pose proof (Hfull n xs Hc) as Hxs. unfold imputed.
  now rewrite !fillna_no_missing by assumption;
    destruct (String.eqb strategy "median"), (String.eqb strategy "mean").
Qed.

Lemma impute_missing_nothing_missing_witness :
  NoDup (columns three_visits) /\
  (forall col xs, get_col col three_visits = Some (Numeric xs) ->
                  forallb notna xs = true) /\
  impute_missing "median" three_visits = (three_visits, Ok three_visits).
Proof.
  assert (Hnd : NoDup (columns three_visits)) by (simpl; nodup_labels).
  assert (Hfull : forall col xs,
             get_col col three_visits = Some (Numeric xs) ->
             forallb notna xs = true).
  { intros col xs H. apply get_col_In in H. simpl in H.
    destruct H as [H|[H|[H|[]]]]; try discriminate;
      injection H as _ <-; reflexivity. }
  split; [exact Hnd|]. split; [exact Hfull|].
  exact (impute_missing_nothing_missing "median" three_visits Hnd Hfull).
Defined.

Lemma null_count_numeric xs :
  null_count (Numeric xs) = List.length (filter isna xs).
Proof.
  unfold null_count. simpl.
  induction xs as [|x rest IH]; simpl; auto.
  destruct (isna x); simpl; now rewrite IH.
Qed.

Lemma filter_isna_no_missing xs :
  forallb notna xs = true -> filter isna xs = [].
Proof.
  unfold notna. induction xs as [|x rest IH]; simpl; auto.
  intros H. apply andb_true_iff in H. destruct H as [Hx Hrest].
  destruct (isna x); [discriminate|auto].
Qed.

Lemma count_nulls_get_col name c df :
  get_col name df = Some c -> In (name, null_count c) (count_nulls df).
Proof.
  intros H. apply get_col_In in H. unfold count_nulls.
  apply in_map_iff. exists (name, c). auto.
Qed.

(** X3.  After [impute_missing] with [median] or [mean], a numeric column
    whose statistic is a number has no missing entry left: [count_nulls]
    reports 0 for it. *)
Theorem impute_missing_leaves_no_nulls strategy df col xs :
  NoDup (columns df) ->
  strategy = "median" \/ strategy = "mean" ->
  get_col col df = Some (Numeric xs) ->
  isna ((if String.eqb strategy "median" then series_median else series_mean)
          xs) = false ->
  exists df',
    impute_missing strategy df = (df', Ok df') /\
    In (col, 0) (count_nulls df').
Proof.
  intros Hnd Hs Hcol Hstat.
  destruct (impute_missing_columns strategy df Hnd) as [df' [Hrun [_ Hget]]].
  exists df'. split; [exact Hrun|].
  specialize (Hget col). rewrite Hcol in Hget. simpl in Hget.
  apply count_nulls_get_col in Hget.
  rewrite null_count_numeric in Hget.
  replace (filter isna (imputed strategy xs)) with (@nil float) in Hget;
    [exact Hget|].
  symmetry. apply filter_isna_no_missing. unfold imputed.
  destruct Hs as [->| ->]; simpl in *; now apply fillna_filled.
Qed.

Lemma impute_missing_leaves_no_nulls_witness :
  NoDup (columns raw_sessions) /\
  get_col "bounce_rates" raw_sessions
  = Some (Numeric [1%float; PrimFloat.nan; 3%float; 4%float]) /\
  isna (series_median [1%float; PrimFloat.nan; 3%float; 4%float]) = false /\
  exists df',
    impute_missing "median" raw_sessions = (df', Ok df') /\
    In ("bounce_rates", 0) (count_nulls df').
Proof.
  assert (Hnd : NoDup (columns raw_sessions)) by (simpl; nodup_labels).
  split; [exact Hnd|]. split; [reflexivity|]. split; [reflexivity|].
  exact (impute_missing_leaves_no_nulls
           "median" raw_sessions "bounce_rates"
           [1%float; PrimFloat.nan; 3%float; 4%float]
           Hnd (or_introl eq_refl) eq_refl eq_refl).
Defined.

(** ** More on [convert_columns] *)

Lemma month_recode v :
  categorical_code month_categories
    (match categorical_code month_categories v with
     | Some k => nth_error month_categories k
     | None => Some (SNum PrimFloat.nan)
     end)
  = categorical_code month_categories v.
Proof.
  destruct (month_code_spec v) as [[_ [k [Hk Hnth]]]|[_ Hnone]].
  - now rewrite Hk, Hnth.
  - now rewrite Hnone.
Qed.

Lemma pd_Categorical_again values :
  pd_Categorical
    (column_values (pd_Categorical values month_categories true))
    month_categories true
  = pd_Categorical values month_categories true.
Proof.
  unfold pd_Categorical, column_values. f_equal. rewrite !map_map.
  apply map_ext. intros v. apply month_recode.
Qed.

Lemma truthy_bools bs : map truthy (map (fun b => Some (SBool b)) bs) = bs.
Proof. induction bs as [|b bs IH]; simpl; now rewrite ?IH. Qed.

Lemma astype_bool_castable c :
  casts_to_bool c = true ->
  astype_bool c = Boolean (map truthy (column_values c)).
Proof.
  destruct c as [xs|bs|vs|categories ordered codes]; try reflexivity.
  unfold casts_to_bool, astype_bool. intros H.
  apply negb_true_iff in H. now rewrite H.
Qed.

Lemma astype_bool_boolean bs : astype_bool (Boolean bs) = Boolean bs.
Proof. unfold astype_bool. simpl. now rewrite truthy_bools. Qed.

(** A cast yields a bool column, or an object column when missing entries of
    a categorical column are kept; casting the result yields a bool
    column. *)
Lemma astype_bool_twice c : exists bs, astype_bool (astype_bool c) = Boolean bs.
Proof.
  destruct c as [xs|bs|vs|categories ordered codes]; simpl;
    try (eexists; reflexivity).
  destruct (existsb missing_code codes); eexists; reflexivity.
Qed.

Lemma astype_bool_settles c :
  astype_bool (astype_bool (astype_bool c)) = astype_bool (astype_bool c).
Proof.
  destruct (astype_bool_twice c) as [bs ->]. apply astype_bool_boolean.
Qed.

Lemma astype_bool_again c :
  casts_to_bool c = true -> astype_bool (astype_bool c) = astype_bool c.
Proof.
  intros H. rewrite (astype_bool_castable c H). apply astype_bool_boolean.
Qed.

Lemma col_len_astype_bool c : col_len (astype_bool c) = col_len c.
Proof.
  destruct c as [xs|bs|vs|categories ordered codes]; simpl;
    rewrite ?length_map; auto.
  destruct (existsb missing_code codes); simpl; now rewrite !length_map.
Qed.

Lemma converted_columns df month weekend revenue :
  get_col "month" df = Some month ->
  get_col "weekend" df = Some weekend ->
  get_col "revenue" df = Some revenue ->
  get_col "month" (converted df month weekend revenue)
  = Some (pd_Categorical (column_values month) month_categories true) /\
  get_col "weekend" (converted df month weekend revenue)
  = Some (astype_bool weekend) /\
  get_col "revenue" (converted df month weekend revenue)
  = Some (astype_bool revenue).
Proof.
  intros Hm Hw Hr. unfold converted. repeat split.
  - rewrite !get_col_set_col_other by discriminate.
    apply get_col_set_col_same.
  - rewrite get_col_set_col_other by discriminate.
    apply get_col_set_col_same.
  - apply get_col_set_col_same.
Qed.

Lemma converted_fixed df month weekend revenue :
  get_col "month" df = Some month ->
  get_col "weekend" df = Some weekend ->
  get_col "revenue" df = Some revenue ->
  pd_Categorical (column_values month) month_categories true = month ->
  astype_bool weekend = weekend ->
  astype_bool revenue = revenue ->
  converted df month weekend revenue = df.
Proof.
  intros Hm Hw Hr Em Ew Er. unfold converted. rewrite Em, Ew, Er.
  rewrite (set_col_unchanged "month" _ _ Hm).
  rewrite (set_col_unchanged "weekend" _ _ Hw).
  apply (set_col_unchanged "revenue" _ _ Hr).
Qed.

(** X4.  Calling [convert_columns] again settles: on a frame that has the
    three columns, the frame the second call leaves is a fixed point of the
    function.  When neither [weekend] nor [revenue] is a categorical column
    with a missing entry the first call's frame already is: the call is
    idempotent. *)
Theorem convert_columns_idempotent df month weekend revenue :
  get_col "month" df = Some month ->
  get_col "weekend" df = Some weekend ->
  get_col "revenue" df = Some revenue ->
  exists df1 df2,
    convert_columns df = (df1, Ok df1) /\
    convert_columns df1 = (df2, Ok df2) /\
    convert_columns df2 = (df2, Ok df2) /\
    (casts_to_bool weekend = true -> casts_to_bool revenue = true ->
     df2 = df1).
Proof.
  intros Hm Hw Hr.
  set (df1 := converted df month weekend revenue).
  destruct (converted_columns df month weekend revenue Hm Hw Hr)
    as [Hm1 [Hw1 Hr1]].
  fold df1 in Hm1, Hw1, Hr1.
  set (m1 := pd_Categorical (column_values month) month_categories true) in *.
  set (df2 := converted df1 m1 (astype_bool weekend) (astype_bool revenue)).
  destruct (converted_columns df1 _ _ _ Hm1 Hw1 Hr1) as [Hm2 [Hw2 Hr2]].
  fold df2 in Hm2, Hw2, Hr2.
  assert (Em : pd_Categorical (column_values m1) month_categories true = m1)
    by apply pd_Categorical_again.
  rewrite Em in Hm2.
  exists df1, df2. split; [now apply convert_columns_run|].
  split; [now apply convert_columns_run|]. split.
  - rewrite (convert_columns_run _ _ _ _ Hm2 Hw2 Hr2).
    rewrite (converted_fixed df2 _ _ _ Hm2 Hw2 Hr2 Em
                             (astype_bool_settles weekend)
                             (astype_bool_settles revenue)).
    reflexivity.
  - intros Cw Cr. unfold df2.
    apply (converted_fixed df1 _ _ _ Hm1 Hw1 Hr1 Em
                           (astype_bool_again weekend Cw)
                           (astype_bool_again revenue Cr)).
Qed.

Lemma convert_columns_idempotent_witness :
  get_col "weekend" categorical_weekend
  = Some (Categorical [SBool false; SBool true] false [Some 1; None; Some 0]) /\
  casts_to_bool (Object [Some (SStr "False"); Some (SStr ""); None;
                         Some (SNum PrimFloat.nan)]) = true /\
  casts_to_bool (Numeric [0%float; 1%float; PrimFloat.nan; 2%float]) = true /\
  (exists df1 df2,
      convert_columns categorical_weekend = (df1, Ok df1) /\
      convert_columns df1 = (df2, Ok df2) /\
      convert_columns df2 = (df2, Ok df2) /\
      get_col "weekend" df1
      = Some (Object [Some (SBool true); Some (SNum PrimFloat.nan);
                      Some (SBool false)]) /\
      get_col "weekend" df2 = Some (Boolean [true; true; false])) /\
  (exists df1,
      convert_columns raw_sessions = (df1, Ok df1) /\
      convert_columns df1 = (df1, Ok df1)).
Proof.
  split; [reflexivity|]. split; [reflexivity|]. split; [reflexivity|]. split.
  - destruct (convert_columns_idempotent categorical_weekend _ _ _
                                         eq_refl eq_refl eq_refl)
      as [df1 [df2 [H1 [H2 [H3 _]]]]].
    exists df1, df2. split; [exact H1|]. split; [exact H2|].
    split; [exact H3|].
    assert (E1 : df1 = fst (convert_columns categorical_weekend))
      by now rewrite H1.
    assert (E2 : df2 = fst (convert_columns df1)) by now rewrite H2.
    rewrite E2, E1. split; reflexivity.
  - destruct (convert_columns_idempotent raw_sessions _ _ _
                                         eq_refl eq_refl eq_refl)
      as [df1 [df2 [H1 [H2 [_ Hsame]]]]].
    exists df1. split; [exact H1|].
    rewrite (Hsame eq_refl eq_refl) in H2. exact H2.
Defined.

(** X5.  The failures of [convert_columns] are [KeyError]s raised in the
    order month, weekend, revenue, and they are not atomic: when [weekend] is
    absent the caller's frame already holds the converted [month]; when
    [revenue] is absent it holds the converted [month] and [weekend]. *)
Theorem convert_columns_failures df :
  (get_col "month" df = None ->
   convert_columns df = (df, Raise (KeyError "month"))) /\
  (forall month,
      get_col "month" df = Some month ->
      get_col "weekend" df = None ->
      convert_columns df
      = (set_col "month"
           (pd_Categorical (column_values month) month_categories true) df,
         Raise (KeyError "weekend"))) /\
  (forall month weekend,
      get_col "month" df = Some month ->
      get_col "weekend" df = Some weekend ->
      get_col "revenue" df = None ->
      convert_columns df
      = (set_col "weekend" (astype_bool weekend)
           (set_col "month"
              (pd_Categorical (column_values month) month_categories true) df),
         Raise (KeyError "revenue"))).
Proof.
  unfold convert_columns, bind, getitem, setitem.
  split; [intros ->; reflexivity|]. split.
  - intros month -> Hw.
    rewrite get_col_set_col_other by discriminate. now rewrite Hw.
  - intros month weekend -> Hw Hr.
    rewrite get_col_set_col_other by discriminate. rewrite Hw.
    rewrite !get_col_set_col_other by discriminate. now rewrite Hr.
Qed.

Lemma convert_columns_failures_witness :
  get_col "month" no_weekend = Some (Object [Some (SStr "Jan")]) /\
  get_col "weekend" no_weekend = None /\
  convert_columns no_weekend
  = ([("month", Categorical month_categories true [Some 0]);
      ("revenue", Numeric [1%float])],
     Raise (KeyError "weekend")).
Proof.
  split; [reflexivity|]. split; [reflexivity|].
  exact (proj1 (proj2 (convert_columns_failures no_weekend))
               (Object [Some (SStr "Jan")]) eq_refl eq_refl).
Defined.















Lemma month_number_code v :
  categorical_code month_categories v = month_number v.
Proof.
  destruct v as [[b|x|s]|]; try reflexivity.
  - unfold categorical_code. destruct (cell_isna (Some (SNum x))); reflexivity.
  - unfold categorical_code, month_number, month_categories. simpl.
    repeat match goal with
           | |- context [String.eqb s ?l] =>
               destruct (String.eqb s l); [reflexivity|simpl]
           end.
    reflexivity.
Qed.

(** X18.  On a frame that has [month], [weekend] and [revenue],
    [convert_columns] succeeds; [month] becomes the ordered categorical over
    Jan..Dec in calendar order in which each raw value is coded by its
    calendar position, or as missing when it is not one of the labels;
    [weekend] and [revenue], unless they are categorical with a missing
    entry, become boolean by truthiness ([None], [0] and the empty string
    read False, NaN and everything else True); every other column, the
    column labels and the row count are unchanged. *)
Theorem convert_columns_types df month weekend revenue :
  get_col "month" df = Some month ->
  get_col "weekend" df = Some weekend ->
  get_col "revenue" df = Some revenue ->
  exists df',
    convert_columns df = (df', Ok df') /\
    get_col "month" df' =
    Some (Categorical
            [SStr "Jan"; SStr "Feb"; SStr "Mar"; SStr "Apr"; SStr "May";
             SStr "Jun"; SStr "Jul"; SStr "Aug"; SStr "Sep"; SStr "Oct";
             SStr "Nov"; SStr "Dec"] true
            (map month_number (column_values month))) /\
    (casts_to_bool weekend = true ->
     get_col "weekend" df'
     = Some (Boolean (map truthy (column_values weekend)))) /\
    (casts_to_bool revenue = true ->
     get_col "revenue" df'
     = Some (Boolean (map truthy (column_values revenue)))) /\
    (forall other, other <> "month" -> other <> "weekend" ->
                   other <> "revenue" -> get_col other df' = get_col other df) /\
    columns df' = columns df /\
    nrows df' = nrows df.
Proof.
  intros Hm Hw Hr.
  exists (converted df month weekend revenue).
  split; [now apply convert_columns_run|].
  destruct (converted_columns df month weekend revenue Hm Hw Hr)
    as [Hm' [Hw' Hr']].
  assert (Hw1 : get_col "weekend"
                  (set_col "month"
                     (pd_Categorical (column_values month) month_categories true)
                     df) = Some weekend)
    by (rewrite get_col_set_col_other by discriminate; exact Hw).
  assert (Hr2 : get_col "revenue"
                  (set_col "weekend" (astype_bool weekend)
                     (set_col "month"
                        (pd_Categorical (column_values month)
                                        month_categories true) df))
                = Some revenue)
    by (rewrite !get_col_set_col_other by discriminate; exact Hr).
  split; [|split; [|split; [|split; [|split]]]].
  - rewrite Hm'. unfold pd_Categorical, month_categories. do 2 f_equal.
    apply map_ext. intros v. apply month_number_code.
  - intros C. now rewrite Hw', (astype_bool_castable weekend C).
  - intros C. now rewrite Hr', (astype_bool_castable revenue C).
  - intros other H1 H2 H3. unfold converted.
    rewrite !get_col_set_col_other by congruence. reflexivity.
  - unfold converted.
    rewrite (columns_set_col _ _ _ _ Hr2), (columns_set_col _ _ _ _ Hw1).
    eapply columns_set_col; eauto.
  - unfold converted.
    rewrite (nrows_set_col _ _ _ _ Hr2), (nrows_set_col _ _ _ _ Hw1).
    + eapply nrows_set_col; eauto.
      simpl. rewrite length_map. apply col_len_values.
    + apply col_len_astype_bool.
    + apply col_len_astype_bool.
Qed.

Lemma convert_columns_types_witness :
  get_col "month" raw_sessions
  = Some (Object [Some (SStr "Jan"); Some (SStr "Foo"); None;
                  Some (SStr "Dec")]) /\
  casts_to_bool (Object [Some (SStr "False"); Some (SStr ""); None;
                         Some (SNum PrimFloat.nan)]) = true /\
  casts_to_bool (Numeric [0%float; 1%float; PrimFloat.nan; 2%float]) = true /\
  exists df',
    convert_columns raw_sessions = (df', Ok df') /\
    get_col "month" df'
    = Some (Categorical month_categories true
                        [Some 0; None; None; Some 11]) /\
    get_col "weekend" df' = Some (Boolean [true; false; false; true]) /\
    get_col "revenue" df' = Some (Boolean [false; true; true; true]) /\
    get_col "bounce_rates" df' = get_col "bounce_rates" raw_sessions /\
    nrows df' = 4.
Proof.
  split; [reflexivity|]. split; [reflexivity|]. split; [reflexivity|].
  destruct (convert_columns_types raw_sessions _ _ _ eq_refl eq_refl eq_refl)
    as [df' [Hrun [Hm [Hw [Hr [Hother [_ Hrows]]]]]]].
  exists df'. split; [exact Hrun|].
  split; [rewrite Hm; reflexivity|].
  split; [rewrite (Hw eq_refl); reflexivity|].
  split; [rewrite (Hr eq_refl); reflexivity|].
  split; [apply Hother; discriminate|].
  rewrite Hrows. reflexivity.
Defined.

(** ** More on [remove_outliers] *)

(** X8.  Passes compose: filtering on [cs1 ++ cs2] is filtering on [cs1] and
    then, on the frame that is left, on [cs2]; an error of the first part is
    the error of the whole.  In particular two calls in a row with the same
    list are one call with the list doubled. *)
Theorem remove_outliers_app df cs1 cs2 :
  remove_outliers df (cs1 ++ cs2)
  = match remove_outliers df cs1 with
    | Ok df1 => remove_outliers df1 cs2
    | Raise e => Raise e
    end.
Proof.
  revert df. induction cs1 as [|col rest IH]; intros df; simpl; auto.
  destruct (frame_floats df col) as [xs|e]; auto.
Qed.

Lemma select_nil {A : Type} mask : select mask (@nil A) = [].
Proof. now destruct mask. Qed.

Lemma select_compose {A : Type} m1 m2 (xs : list A) :
  select m2 (select m1 xs) = select (compose_mask m1 m2) xs.
Proof.
  revert m2 xs. induction m1 as [|b r1 IH]; intros m2 xs.
  - simpl. apply select_nil.
  - destruct xs as [|x xs'].
    + now rewrite !select_nil.
    + destruct b; simpl.
      * destruct m2 as [|c r2]; simpl; auto.
        destruct c; now rewrite IH.
      * apply IH.
Qed.

Lemma col_select_compose m1 m2 c :
  col_select m2 (col_select m1 c) = col_select (compose_mask m1 m2) c.
Proof. destruct c; simpl; now rewrite select_compose. Qed.

Lemma select_rows_compose m1 m2 df :
  select_rows m2 (select_rows m1 df) = select_rows (compose_mask m1 m2) df.
Proof.
  unfold select_rows. rewrite map_map. apply map_ext.
  intros [n c]. simpl. now rewrite col_select_compose.
Qed.

Lemma select_all_true {A : Type} n (xs : list A) :
  List.length xs <= n -> select (repeat true n) xs = xs.
Proof.
  revert xs. induction n as [|n IH]; intros [|x xs] H; simpl in *;
    try reflexivity; try lia.
  rewrite IH; auto. lia.
Qed.

Lemma select_rows_all_true df :
  select_rows (repeat true (list_max (map (fun nc => col_len (snd nc)) df))) df
  = df.
Proof.
  set (n := list_max (map (fun nc => col_len (snd nc)) df)).
  assert (Hle : Forall (fun nc : string * column => col_len (snd nc) <= n) df).
  { pose proof (proj1 (list_max_le (map (fun nc => col_len (snd nc)) df) n)
                      (Nat.le_refl _)) as H.
    rewrite Forall_map in H. exact H. }
  clearbody n. unfold select_rows.
  induction Hle as [|[name c] rest Hc Hrest IH]; simpl; auto.
  rewrite IH. f_equal. f_equal.
  destruct c; simpl in *; now rewrite select_all_true.
Qed.

Lemma select_length {A B : Type} mask (xs : list A) (ys : list B) :
  List.length xs = List.length ys ->
  List.length (select mask xs) = List.length (select mask ys).
Proof.
  revert xs ys. induction mask as [|m mask IH]; intros [|x xs] [|y ys] H;
    simpl in *; try reflexivity; try discriminate.
  destruct m; simpl; auto.
Qed.

Lemma col_select_len mask c c' :
  col_len c = col_len c' ->
  col_len (col_select mask c) = col_len (col_select mask c').
Proof. destruct c, c'; simpl; apply select_length. Qed.

Lemma aligned_select_rows mask df : aligned df -> aligned (select_rows mask df).
Proof.
  unfold aligned. destruct df as [|[n0 c0] rest]; [constructor|].
  intros H. unfold select_rows. apply Forall_map.
  eapply Forall_impl; [|exact H].
  intros [n c] Hc. simpl in *. now apply col_select_len.
Qed.

(** X9.  Whatever [remove_outliers] returns is the input frame filtered by
    one mask common to all columns: rows are dropped, never altered or
    reordered, and the columns stay aligned. *)
Theorem remove_outliers_common_mask columns_ df df' :
  remove_outliers df columns_ = Ok df' ->
  (exists mask, df' = select_rows mask df) /\
  (aligned df -> aligned df').
Proof.
  revert df. induction columns_ as [|col rest IH]; simpl; intros df H.
  - injection H as <-. split; auto.
    eexists. symmetry. apply select_rows_all_true.
  - destruct (frame_floats df col) as [xs|e]; [|discriminate].
    apply IH in H. destruct H as [[mask ->] Hal]. split.
    + eexists. apply select_rows_compose.
    + intros Ha. apply Hal. now apply aligned_select_rows.
Qed.

Lemma remove_outliers_common_mask_witness :
  remove_outliers two_stragglers ["x"; "x"] = Ok one_to_five /\
  aligned two_stragglers /\
  (exists mask, one_to_five = select_rows mask two_stragglers) /\
  aligned one_to_five.
Proof.
  assert (H : remove_outliers two_stragglers ["x"; "x"] = Ok one_to_five)
    by reflexivity.
  assert (Ha : aligned two_stragglers) by (repeat constructor).
  split; [exact H|]. split; [exact Ha|].
  destruct (remove_outliers_common_mask ["x"; "x"] two_stragglers one_to_five H)
    as [Hmask Hal].
  split; [exact Hmask|exact (Hal Ha)].
Defined.

(** Comparisons with NaN are false. *)
Lemma ltb_nan_l x y : isna x = true -> PrimFloat.ltb x y = false.
Proof.
  intros H. rewrite (isna_nan x H), FloatAxioms.ltb_spec.
  change (Prim2SF PrimFloat.nan) with S754_nan. reflexivity.
Qed.

Lemma ltb_nan_r x y : isna y = true -> PrimFloat.ltb x y = false.
Proof.
  intros H. rewrite (isna_nan y H), FloatAxioms.ltb_spec.
  change (Prim2SF PrimFloat.nan) with S754_nan.
  unfold SFltb. destruct (Prim2SF x); reflexivity.
Qed.

Lemma filter_filter_keeps {A : Type} (p k : A -> bool) l :
  (forall a, p a = true -> k a = true) ->
  filter p (filter k l) = filter p l.
Proof.
  intros H. induction l as [|a l IH]; simpl; auto.
  destruct (k a) eqn:Ek; simpl.
  - now rewrite IH.
  - rewrite IH. destruct (p a) eqn:Ep; auto.
    apply H in Ep. congruence.
Qed.

Lemma filter_all_true {A : Type} (k : A -> bool) l :
  (forall a, In a l -> k a = true) -> filter k l = l.
Proof.
  induction l as [|a l IH]; simpl; intros H; auto.
  rewrite (H a (or_introl eq_refl)), IH; auto.
Qed.

(** X10.  A pass over a numeric column never drops a row whose value in that
    column is missing: the column keeps all its NaN entries, so
    [count_nulls] reports the same number for it, and a column that is
    entirely missing comes back as it was. *)
Theorem remove_outliers_keeps_missing df col xs :
  get_col col df = Some (Numeric xs) ->
  exists df' ys,
    remove_outliers df [col] = Ok df' /\
    get_col col df' = Some (Numeric ys) /\
    filter isna ys = filter isna xs /\
    In (col, null_count (Numeric xs)) (count_nulls df') /\
    (forallb isna xs = true -> ys = xs).
Proof.
  intros Hcol.
  exists (select_rows (keep_mask xs) df), (filter (fun x =>
            negb (PrimFloat.ltb x (fst (iqr_bounds xs))
                  || PrimFloat.ltb (snd (iqr_bounds xs)) x)) xs).
  assert (Hget : get_col col (select_rows (keep_mask xs) df)
                 = Some (Numeric (filter (fun x =>
                      negb (PrimFloat.ltb x (fst (iqr_bounds xs))
                            || PrimFloat.ltb (snd (iqr_bounds xs)) x)) xs))).
  { rewrite get_col_select_rows, Hcol. simpl. unfold keep_mask.
    now rewrite select_filter. }
  assert (Hkeep : forall x, isna x = true ->
            negb (PrimFloat.ltb x (fst (iqr_bounds xs))
                  || PrimFloat.ltb (snd (iqr_bounds xs)) x) = true).
  { intros x Hx. now rewrite ltb_nan_l, ltb_nan_r. }
  assert (Hnulls : filter isna (filter (fun x =>
                      negb (PrimFloat.ltb x (fst (iqr_bounds xs))
                            || PrimFloat.ltb (snd (iqr_bounds xs)) x)) xs)
                   = filter isna xs)
    by now apply filter_filter_keeps.
  split; [|split; [exact Hget|split; [exact Hnulls|split]]].
  - simpl. now rewrite (frame_floats_numeric df col xs Hcol).
  - apply count_nulls_get_col in Hget.
    now rewrite null_count_numeric, Hnulls, <- null_count_numeric in Hget.
  - intros Hall. apply filter_all_true. intros x Hx. apply Hkeep.
    rewrite forallb_forall in Hall. auto.
Qed.

Lemma remove_outliers_keeps_missing_witness :
  get_col "bounce_rates" raw_sessions
  = Some (Numeric [1%float; PrimFloat.nan; 3%float; 4%float]) /\
  exists df' ys,
    remove_outliers raw_sessions ["bounce_rates"] = Ok df' /\
    get_col "bounce_rates" df' = Some (Numeric ys) /\
    filter isna ys = [PrimFloat.nan].
Proof.
  split; [reflexivity|].
  destruct (remove_outliers_keeps_missing
              raw_sessions "bounce_rates"
              [1%float; PrimFloat.nan; 3%float; 4%float] eq_refl)
    as [df' [ys [Hrun [Hget [Hnulls _]]]]].
  exists df', ys. auto.
Defined.

Lemma In_columns_get_col name df :
  In name (columns df) -> exists c, get_col name df = Some c.
Proof.
  unfold columns. induction df as [|[n c] rest IH]; simpl; [intros []|].
  intros H. destruct (String.eqb n name) eqn:E; [eauto|].
  destruct H as [H|H]; auto.
  subst n. rewrite String.eqb_refl in E. discriminate.
Qed.

Lemma remove_outliers_numeric_ok columns_ df :
  (forall col, In col columns_ ->
               exists xs, get_col col df = Some (Numeric xs)) ->
  exists df', remove_outliers df columns_ = Ok df'.
Proof.
  revert df. induction columns_ as [|col rest IH]; intros df Hnum; simpl.
  - eauto.
  - destruct (Hnum col (or_introl eq_refl)) as [xs Hcol].
    rewrite (frame_floats_numeric df col xs Hcol).
    apply IH. intros c Hin. destruct (Hnum c (or_intror Hin)) as [ys Hc].
    rewrite get_col_select_rows, Hc. simpl. eauto.
Qed.

(** X11.  A label that is not a column stops [remove_outliers] with a
    [KeyError] for that label, once the numeric columns listed before it have
    been processed; the labels after it are never looked at. *)
Theorem remove_outliers_missing_column df cs1 col cs2 :
  (forall c, In c cs1 -> exists xs, get_col c df = Some (Numeric xs)) ->
  get_col col df = None ->
  remove_outliers df (cs1 ++ col :: cs2) = Raise (KeyError col).
Proof.
  intros Hnum Hcol. rewrite remove_outliers_app.
  destruct (remove_outliers_numeric_ok cs1 df Hnum) as [df1 H1].
  rewrite H1. apply remove_outliers_shrinks in H1. destruct H1 as [_ Hcols].
  assert (Hcol1 : get_col col df1 = None).
  { apply get_col_absent. rewrite Hcols. intros Hin.
    apply In_columns_get_col in Hin. destruct Hin as [c Hc]. congruence. }
  simpl. unfold frame_floats, bind, getitem. now rewrite Hcol1.
Qed.

Lemma remove_outliers_missing_column_witness :
  (forall c, In c ["x"] ->
             exists xs, get_col c one_to_five = Some (Numeric xs)) /\
  get_col "y" one_to_five = None /\
  remove_outliers one_to_five (["x"] ++ "y" :: ["x"]) = Raise (KeyError "y").
Proof.
  assert (Hnum : forall c, In c ["x"] ->
                   exists xs, get_col c one_to_five = Some (Numeric xs)).
  { intros c [<-|[]]. eexists. reflexivity. }
  split; [exact Hnum|]. split; [reflexivity|].
  exact (remove_outliers_missing_column one_to_five ["x"] "y" ["x"]
                                        Hnum eq_refl).
Defined.

(** ** Dtypes *)

Lemma describe_columns_select_rows mask df :
  describe_columns (select_rows mask df) = describe_columns df.
Proof.
  unfold describe_columns, select_rows. rewrite map_map. apply map_ext.
  intros [n c]. simpl. now destruct c.
Qed.

(** X12.  Neither [remove_outliers] nor [impute_missing] changes a dtype:
    [describe_columns] reports the same labels and dtypes, categories
    included, after the call as before. *)
Theorem dtypes_preserved :
  (forall columns_ df df',
      remove_outliers df columns_ = Ok df' ->
      describe_columns df' = describe_columns df) /\
  (forall strategy df,
      NoDup (columns df) ->
      exists df',
        impute_missing strategy df = (df', Ok df') /\
        describe_columns df' = describe_columns df).
Proof.
  split.
  - induction columns_ as [|col rest IH]; simpl; intros df df' H.
    + now injection H as <-.
    + destruct (frame_floats df col) as [xs|e]; [|discriminate].
      apply IH in H. now rewrite H, describe_columns_select_rows.
  - intros strategy df Hnd.
    destruct (impute_missing_columns strategy df Hnd)
      as [df' [Hrun [Hcols Hget]]].
    exists df'. split; [exact Hrun|].
    apply (frame_map_ext column_dtype); auto.
    intros n. rewrite Hget. now destruct (get_col n df) as [[]|].
Qed.

Lemma dtypes_preserved_witness :
  NoDup (columns raw_sessions) /\
  remove_outliers raw_sessions ["revenue"]
  = Ok (select_rows [true; true; true; true] raw_sessions) /\
  describe_columns (select_rows [true; true; true; true] raw_sessions)
  = describe_columns raw_sessions /\
  exists df',
    impute_missing "mean" raw_sessions = (df', Ok df') /\
    describe_columns df' = describe_columns raw_sessions.
Proof.
  assert (Hnd : NoDup (columns raw_sessions)) by (simpl; nodup_labels).
  assert (H : remove_outliers raw_sessions ["revenue"]
              = Ok (select_rows [true; true; true; true] raw_sessions))
    by reflexivity.
  split; [exact Hnd|]. split; [exact H|]. split.
  - exact (proj1 dtypes_preserved _ _ _ H).
  - exact (proj2 dtypes_preserved "mean" raw_sessions Hnd).
Defined.

(** ** More on [fix_skew] *)

Lemma series_skew_short pow xs :
  List.length (dropna xs) < 3 -> series_skew pow xs = PrimFloat.nan.
Proof.
  intros H. unfold series_skew. cbv zeta.
  apply Nat.ltb_lt in H. now rewrite H.
Qed.

(** X13.  A numeric column with fewer than three non-missing values is never
    transformed by [fix_skew], whatever the threshold: its skewness is
    undefined (NaN) and compares above nothing. *)
Theorem fix_skew_short_column log1p pow threshold df col xs :
  NoDup (columns df) ->
  get_col col df = Some (Numeric xs) ->
  List.length (dropna xs) < 3 ->
  exists df',
    fix_skew log1p pow threshold df = (df', Ok df') /\
    get_col col df' = Some (Numeric xs).
Proof.
  intros Hnd Hcol Hshort.
  destruct (fix_skew_columns log1p pow threshold df Hnd)
    as [df' [Hrun [_ [_ Hget]]]].
  exists df'. split; [exact Hrun|].
  rewrite Hget, Hcol. simpl. unfold skew_corrected.
  rewrite (series_skew_short pow xs Hshort).
  now rewrite ltb_nan_r.
Qed.

Lemma fix_skew_short_column_witness :
  NoDup (columns no_weekend) /\
  get_col "revenue" no_weekend = Some (Numeric [1%float]) /\
  List.length (dropna [1%float]) < 3 /\
  exists df',
    fix_skew (fun x => x) rounded_pow (-1)%float no_weekend = (df', Ok df') /\
    get_col "revenue" df' = Some (Numeric [1%float]).
Proof.
  assert (Hnd : NoDup (columns no_weekend)) by (simpl; nodup_labels).
  assert (Hshort : List.length (dropna [1%float]) < 3) by (simpl; lia).
  split; [exact Hnd|]. split; [reflexivity|]. split; [exact Hshort|].
  exact (fix_skew_short_column (fun x => x) rounded_pow (-1)%float no_weekend
                               "revenue" [1%float] Hnd eq_refl Hshort).
Defined.

(** ** More on the aggregates *)

Lemma take_map_commute {A B : Type} (f : A -> B) p (l : list A) :
  map f (take p l) = take p (map f l).
Proof.
  unfold take. induction p as [|i p IH]; simpl; auto.
  rewrite map_app, IH, nth_error_map.
  now destruct (nth_error l i).
Qed.

Lemma combine_keyed {K A B : Type} (a : K -> A) (b : K -> B) (l : list K) :
  combine l (combine (map a l) (map b l)) = map (fun k => (k, (a k, b k))) l.
Proof. induction l as [|k l IH]; simpl; now rewrite ?IH. Qed.

Lemma grouped_values agg g xs :
  map snd (grouped agg g xs)
  = map (fun k => agg (group_values k (grouper_cells g) xs)) (grouper_keys g).
Proof. unfold grouped. now rewrite map_map. Qed.

Lemma aggregate_numeric float_agg object_agg strings g c xs df :
  numeric_view c = Some xs ->
  aggregate float_agg object_agg strings g c df
  = (df, Ok (grouped float_agg g xs)).
Proof. intros H. unfold aggregate. now rewrite H. Qed.

Lemma aggregate_leaves_frame float_agg object_agg strings g c df :
  fst (aggregate float_agg object_agg strings g c df) = df.
Proof.
  unfold aggregate. destruct (numeric_view c); [reflexivity|].
  destruct c; try reflexivity. now destruct (object_floats vs).
Qed.

Lemma traffic_run argsort df traffic_type revenue bounce_rates xs ys :
  get_col "traffic_type" df = Some traffic_type ->
  get_col "revenue" df = Some revenue ->
  get_col "bounce_rates" df = Some bounce_rates ->
  numeric_view revenue = Some xs ->
  numeric_view bounce_rates = Some ys ->
  traffic_analysis argsort df
  = (df, Ok (take (nargsort_desc
                     argsort
                     (map (fun row : TrafficRow => fst (snd row))
                          (traffic_table traffic_type xs ys)))
                  (traffic_table traffic_type xs ys))).
Proof.
  intros Ht Hr Hb Hx Hy.
  unfold traffic_analysis, groupby, bind, getitem, agg_labels_exist, ret.
  rewrite Ht. cbv beta iota. cbv [filter]. rewrite Hr, Hb.
  cbv [fold_right]. cbv beta iota. rewrite Hr. cbv beta iota.
  rewrite (aggregate_numeric _ _ _ _ _ xs df Hx). cbv beta iota.
  rewrite Hb. cbv beta iota.
  rewrite (aggregate_numeric _ _ _ _ _ ys df Hy). cbv beta iota.
  rewrite !grouped_values, combine_keyed. reflexivity.
Qed.

(** X14.  With its three columns present and numeric (or boolean),
    [traffic_analysis] leaves the frame as it is and returns one row per
    traffic type (summed revenue, mean bounce rate), the rows reordered so
    that the summed revenue descends, missing sums last.  Its (type, revenue)
    columns are exactly what sorting the per-type revenue sums on their own
    gives. *)
Theorem traffic_analysis_sorted
        argsort df traffic_type revenue bounce_rates xs ys :
  get_col "traffic_type" df = Some traffic_type ->
  get_col "revenue" df = Some revenue ->
  get_col "bounce_rates" df = Some bounce_rates ->
  numeric_view revenue = Some xs ->
  numeric_view bounce_rates = Some ys ->
  let table := traffic_table traffic_type xs ys in
  let non_nans :=
    rev (dropna (map (fun row : TrafficRow => fst (snd row)) table)) in
  sorts_ascending non_nans (argsort non_nans) ->
  exists result,
    traffic_analysis argsort df = (df, Ok result) /\
    Permutation result table /\
    StronglySorted
      (fun a b : TrafficRow =>
         isna (fst (snd b)) = true \/
         PrimFloat.leb (fst (snd b)) (fst (snd a)) = true) result /\
    map (fun row : TrafficRow => (fst row, fst (snd row))) result
    = sort_values_desc
        argsort
        (map (fun k => (k, group_sum
                             (group_values k (column_values traffic_type) xs)))
             (group_keys false traffic_type)).
Proof.
  intros Ht Hr Hb Hx Hy table non_nans Hsorts.
  destruct (nargsort_desc_sorted
              argsort (map (fun row : TrafficRow => fst (snd row)) table) Hsorts)
    as [Hperm Hdesc].
  rewrite length_map in Hperm.
  eexists. split; [exact (traffic_run argsort df _ _ _ xs ys Ht Hr Hb Hx Hy)|].
  fold table. split; [now apply take_permutation|]. split.
  - rewrite (take_map _ table (SBool false, (PrimFloat.nan, PrimFloat.nan))).
    + apply SSorted_map. eapply SSorted_weaken; [exact Hdesc|].
      intros i j _ _ H.
      now rewrite <- !(map_nth (fun row : TrafficRow => fst (snd row)) table
                               (SBool false, (PrimFloat.nan, PrimFloat.nan))).
    + apply Forall_forall. intros i Hi.
      apply (Permutation_in _ Hperm) in Hi. apply in_seq in Hi. lia.
  - rewrite take_map_commute. unfold sort_values_desc.
    assert (Hproj : map (fun row : TrafficRow => (fst row, fst (snd row))) table
                    = map (fun k => (k, group_sum
                                          (group_values
                                             k (column_values traffic_type) xs)))
                          (group_keys false traffic_type)).
    { unfold table, traffic_table. rewrite map_map. reflexivity. }
    assert (Hitems : map (fun row : TrafficRow => fst (snd row)) table
                     = map snd (map (fun row : TrafficRow =>
                                       (fst row, fst (snd row))) table)).
    { rewrite map_map. reflexivity. }
    now rewrite Hitems, Hproj.
Qed.

Lemma traffic_analysis_sorted_witness :
  sorts_ascending [1%float; 2%float] (stable_argsort [1%float; 2%float]) /\
  exists result,
    traffic_analysis stable_argsort three_visits = (three_visits, Ok result) /\
    Permutation result
      [(SNum 1%float, (2%float, 0.25%float));
       (SNum 2%float, (1%float, 0.25%float))].
Proof.
  assert (Hsorts : sorts_ascending [1%float; 2%float]
                                   (stable_argsort [1%float; 2%float])).
  { split; [apply Permutation_refl|]. repeat constructor. }
  split; [exact Hsorts|].
  destruct (traffic_analysis_sorted
              stable_argsort three_visits
              (Numeric [1%float; 2%float; 1%float])
              (Boolean [true; true; true])
              (Numeric [0.5%float; 0.25%float; 0%float])
              [1%float; 1%float; 1%float]
              [0.5%float; 0.25%float; 0%float]
              eq_refl eq_refl eq_refl eq_refl eq_refl Hsorts)
    as [result [Hrun [Hperm _]]].
  exists result. auto.
Defined.

(** X15.  The three aggregate queries never modify the frame they are given,
    whether they return or raise. *)
Theorem analysis_leaves_frame argsort df :
  fst (weekend_sales_analysis df) = df /\
  fst (regional_revenue_analysis argsort df) = df /\
  fst (traffic_analysis argsort df) = df.
Proof.
  unfold weekend_sales_analysis, regional_revenue_analysis, traffic_analysis,
    groupby, groupby_getitem, bind, getitem, agg_labels_exist, ret, raise.
  repeat split.
  - destruct (get_col "weekend" df) as [g|]; simpl; auto.
    destruct (get_col "revenue" df) as [c|]; simpl; auto.
    apply aggregate_leaves_frame.
  - destruct (get_col "region" df) as [g|]; simpl; auto.
    destruct (get_col "revenue" df) as [c|]; simpl; auto.
    pose proof (aggregate_leaves_frame
                  group_sum object_sum Unmodelled
                  (mkGroupBy (group_keys false g) (column_values g)) c df) as H.
    destruct (aggregate _ _ _ _ c df) as [df' [sums|e]]; simpl in *; auto.
  - destruct (get_col "traffic_type" df) as [g|]; [|reflexivity].
    cbv beta iota. cbv [filter].
    destruct (get_col "revenue" df) as [c|] eqn:Hr;
      destruct (get_col "bounce_rates" df) as [b|] eqn:Hb;
      try reflexivity.
    cbv [fold_right]. cbv beta iota. rewrite Hr. cbv beta iota.
    pose proof (aggregate_leaves_frame
                  group_sum object_sum Unmodelled
                  (mkGroupBy (group_keys false g) (column_values g)) c df) as H.
    destruct (aggregate _ _ _ _ c df) as [df' [sums|e]]; simpl in H; subst df';
      [|reflexivity].
    rewrite Hb. cbv beta iota.
    pose proof (aggregate_leaves_frame
                  group_mean object_mean TypeError
                  (mkGroupBy (group_keys false g) (column_values g)) b df)
      as H.
    destruct (aggregate _ _ _ _ b df) as [df' [means|e]]; simpl in H; subst df';
      reflexivity.
Qed.




(** ** The frame side of [plot_device_breakdown] *)




